(** * cibuildwheel.bashlex_eval: evaluation of a bash-like expression

    A shallow embedding of [cibuildwheel/bashlex_eval.py].  The module
    evaluates a parsed bash word (literal text, [$VAR] parameters and
    [$(...)] command substitutions) against a caller-owned environment
    dictionary and a pluggable executor.

    Conventions of the embedding:
    - a Python [str] is a [string]; a character is a code point below 256;
    - a Python exception is a value of [exn]; a call either returns or raises
      ([result]);
    - the environment dictionary is one shared object: it lives in the
      evaluation state and the context refers to it;
    - the executor is an arbitrary callable: it reads and may mutate the
      dictionary it is handed, and it has a hidden state of its own (the
      outside world), of an arbitrary type [X];
    - [bashlex] (the parser) is an external library: the parser is a
      parameter of [evaluate], and syntax trees are values of [node]. *)

From Stdlib Require Import ZArith Ascii String.
From stdpp Require Import base tactics option list gmap strings.

(** ** Python values and exceptions *)

Inductive exn : Type :=
| ValueError (msg : string)
| IndexError (msg : string)
| AttributeError (msg : string)
| OtherException (cls msg : string).

Inductive result (A : Type) : Type :=
| Ok (a : A)
| Raise (e : exn).
Arguments Ok {A} a.
Arguments Raise {A} e.

Definition result_bind {A B} (r : result A) (k : A → result B) : result B :=
  match r with
  | Ok a => k a
  | Raise e => Raise e
  end.

(** The double quote and the backslash, built from their codes. *)
Definition dquote : ascii := ascii_of_nat 34.
Definition squote : ascii := ascii_of_nat 39.
Definition backslash : ascii := ascii_of_nat 92.

Definition char (c : ascii) : string := String c EmptyString.

(** [sep.join(l)] *)
Definition join (sep : string) (l : list string) : string := String.concat sep l.

(** [list(s)]: the one-character strings of [s]. *)
Fixpoint letters_of (s : string) : list string :=
  match s with
  | EmptyString => []
  | String c s' => char c :: letters_of s'
  end.

(** [s[start:stop]] with Python's treatment of negative and out-of-range
    bounds. *)
Definition clamp_index (len i : Z) : Z :=
  let i := if (i <? 0)%Z then (i + len)%Z else i in
  if (i <? 0)%Z then 0%Z else if (len <? i)%Z then len else i.

Definition py_slice (s : string) (start stop : Z) : string :=
  let len := Z.of_nat (String.length s) in
  let lo := clamp_index len start in
  let hi := clamp_index len stop in
  if (lo <? hi)%Z then String.substring (Z.to_nat lo) (Z.to_nat (hi - lo)) s
  else EmptyString.

(** [l[i] = v] on a Python list: negative indices count from the end, an index
    out of range raises [IndexError]. *)
Definition list_setitem {A} (l : list A) (i : Z) (v : A) : result (list A) :=
  let len := Z.of_nat (length l) in
  if ((0 <=? i) && (i <? len))%Z then Ok (<[Z.to_nat i := v]> l)
  else if ((- len <=? i) && (i <? 0))%Z then Ok (<[Z.to_nat (len + i) := v]> l)
  else Raise (IndexError "list assignment index out of range").

(** [range(start, stop)] *)
Definition range (start stop : Z) : list Z := seqZ start (stop - start).

(** [str.isspace] on one character: the code points below 256 that Python
    counts as whitespace. *)
Definition py_isspace (c : ascii) : bool :=
  let n := nat_of_ascii c in
  ((9 <=? n) && (n <=? 13)) || ((28 <=? n) && (n <=? 32))
  || (n =? 133) || (n =? 160).

Fixpoint lstrip (s : string) : string :=
  match s with
  | EmptyString => EmptyString
  | String c s' => if py_isspace c then lstrip s' else s
  end.

(** [rstrip s] drops the trailing whitespace: a character is kept when it is
    not whitespace or something is kept after it. *)
Fixpoint rstrip (s : string) : string :=
  match s with
  | EmptyString => EmptyString
  | String c s' =>
      match rstrip s' with
      | EmptyString => if py_isspace c then EmptyString else char c
      | r => String c r
      end
  end.

(** [s.strip()] *)
Definition strip (s : string) : string := rstrip (lstrip s).

(** ** The standard library's [shlex.split]

    [shlex.split(s)] builds [shlex(s, posix=True)], sets
    [whitespace_split = True] and [commenters = ''], and collects the tokens
    [read_token] returns until end of input.  [read_tokens] is that loop, one
    character per step; [state], [quoted] and [token] are the lexer's
    variables of the same names, [escapedstate] is kept inside the escape
    state. *)
Module shlex.

Definition whitespace (c : ascii) : bool :=
  bool_decide (c ∈ [" "; "009"; "013"; "010"]%char).
Definition quotes (c : ascii) : bool :=
  bool_decide (c = squote ∨ c = dquote).
Definition escape (c : ascii) : bool := bool_decide (c = backslash).
Definition escapedquotes (c : ascii) : bool := bool_decide (c = dquote).

Inductive lexstate : Type :=
| in_blank                                   (* state == ' ' *)
| in_word                                    (* state == 'a' *)
| in_quote (q : ascii)                       (* state in quotes *)
| in_escape (e : ascii) (escapedstate : lexstate).   (* state in escape *)

Definition in_quotes (st : lexstate) : option ascii :=
  match st with
  | in_quote q => Some q
  | _ => None
  end.

Definition emit (token : string) (rest : result (list string))
  : result (list string) :=
  result_bind rest (λ ts, Ok (token :: ts)).

Fixpoint read_tokens (instream : string) (state : lexstate) (quoted : bool)
  (token : string) : result (list string) :=
  match instream with
  | EmptyString =>
      match state with
      | in_blank | in_word =>
          (* end of file: the pending token is returned unless it is
             empty and unquoted *)
          if bool_decide (token ≠ EmptyString) || quoted
          then Ok [token] else Ok []
      | in_quote _ => Raise (ValueError "No closing quotation")
      | in_escape _ _ => Raise (ValueError "No escaped character")
      end
  | String nextchar rest =>
      match state with
      | in_blank =>
          if whitespace nextchar then
            if bool_decide (token ≠ EmptyString) || quoted
            then emit token (read_tokens rest in_blank false EmptyString)
            else read_tokens rest in_blank quoted token
          else if escape nextchar then
            read_tokens rest (in_escape nextchar in_word) quoted token
          else if quotes nextchar then
            read_tokens rest (in_quote nextchar) quoted token
          else
            read_tokens rest in_word quoted (char nextchar)
      | in_quote q =>
          if bool_decide (nextchar = q) then
            read_tokens rest in_word true token
          else if escape nextchar && escapedquotes q then
            read_tokens rest (in_escape nextchar (in_quote q)) true token
          else
            read_tokens rest (in_quote q) true (token +:+ char nextchar)
      | in_escape e escapedstate =>
          let token :=
            match in_quotes escapedstate with
            | Some q =>
                if bool_decide (nextchar ≠ e) && bool_decide (nextchar ≠ q)
                then token +:+ char e else token
            | None => token
            end in
          read_tokens rest escapedstate quoted (token +:+ char nextchar)
      | in_word =>
          if whitespace nextchar then
            if bool_decide (token ≠ EmptyString) || quoted
            then emit token (read_tokens rest in_blank false EmptyString)
            else read_tokens rest in_blank quoted token
          else if quotes nextchar then
            read_tokens rest (in_quote nextchar) quoted token
          else if escape nextchar then
            read_tokens rest (in_escape nextchar in_word) quoted token
          else
            read_tokens rest in_word quoted (token +:+ char nextchar)
      end
  end.

Definition split (s : string) : result (list string) :=
  read_tokens s in_blank false EmptyString.

End shlex.

(** [' '.join(word.strip() for word in shlex.split(value))] *)
Definition bash_like_treatment (value : string) : result string :=
  result_bind (shlex.split value) (λ words, Ok (join " " (strip <$> words))).

(** ** Syntax trees of [bashlex.ast]

    A [bashlex.ast.node] is an attribute bag tagged by its [kind]; which
    attributes exist is fixed by the kind.  The five kinds the evaluator
    inspects have a constructor each; the other kinds of bashlex are grouped
    by whether they carry a [parts] attribute; attributes the evaluator never
    reads ([word], [pipe], [redirects], ...) are left out or kept for
    documentation only. *)
Module ast.

(** Remaining kinds that have [parts]. *)
Inductive parts_kind : Type :=
| k_list | k_pipeline | k_if | k_for | k_while | k_until | k_function
| k_assignment.

(** Remaining kinds that have no [parts]. *)
Inductive leaf_kind : Type :=
| k_pipe | k_compound | k_reservedword | k_tilde | k_redirect | k_heredoc
| k_processsubstitution.

Inductive node : Type :=
| WordNode (pos : Z * Z) (word : string) (parts : list node)
| ParameterNode (pos : Z * Z) (value : string)
| CommandsubstitutionNode (pos : Z * Z) (command : node)
| CommandNode (pos : Z * Z) (parts : list node)
| OperatorNode (pos : Z * Z) (op : string)
| PartsNode (k : parts_kind) (pos : Z * Z) (parts : list node)
| LeafNode (k : leaf_kind) (pos : Z * Z).

Definition parts_kind_name (k : parts_kind) : string :=
  match k with
  | k_list => "list" | k_pipeline => "pipeline" | k_if => "if"
  | k_for => "for" | k_while => "while" | k_until => "until"
  | k_function => "function" | k_assignment => "assignment"
  end.

Definition leaf_kind_name (k : leaf_kind) : string :=
  match k with
  | k_pipe => "pipe" | k_compound => "compound"
  | k_reservedword => "reservedword" | k_tilde => "tilde"
  | k_redirect => "redirect" | k_heredoc => "heredoc"
  | k_processsubstitution => "processsubstitution"
  end.

Definition kind (n : node) : string :=
  match n with
  | WordNode _ _ _ => "word"
  | ParameterNode _ _ => "parameter"
  | CommandsubstitutionNode _ _ => "commandsubstitution"
  | CommandNode _ _ => "command"
  | OperatorNode _ _ => "operator"
  | PartsNode k _ _ => parts_kind_name k
  | LeafNode k _ => leaf_kind_name k
  end.

Definition pos (n : node) : Z * Z :=
  match n with
  | WordNode p _ _ | ParameterNode p _ | CommandsubstitutionNode p _
  | CommandNode p _ | OperatorNode p _ | PartsNode _ p _ | LeafNode _ p => p
  end.

(** [n.parts], when the attribute exists. *)
Definition parts (n : node) : option (list node) :=
  match n with
  | WordNode _ _ ps | CommandNode _ ps | PartsNode _ _ ps => Some ps
  | _ => None
  end.

(** [n.value]; of the kinds that carry one, only [parameter] is kept (the
    evaluator never reads the value of a tilde or heredoc node). *)
Definition value (n : node) : option string :=
  match n with
  | ParameterNode _ v => Some v
  | _ => None
  end.

Definition is_operator (n : node) : bool :=
  match n with
  | OperatorNode _ _ => true
  | _ => false
  end.

Definition is_command (n : node) : bool :=
  match n with
  | CommandNode _ _ => true
  | _ => false
  end.

(** An operator node whose [op] is [;]. *)
Definition is_semicolon (n : node) : bool :=
  match n with
  | OperatorNode _ op => bool_decide (op = ";")
  | _ => false
  end.

End ast.

(** [f'"{s}"'] *)
Definition in_dquotes (s : string) : string :=
  char dquote +:+ s +:+ char dquote.

Definition no_attribute (attr : string) : exn :=
  AttributeError ("'node' object has no attribute '" +:+ attr +:+ "'").

(** The errors the evaluator raises itself, with their messages. *)
Definition too_many_parts (value : string) : exn :=
  ValueError (in_dquotes value +:+ " has too many parts").
Definition unsupported_construct (kind : string) : exn :=
  ValueError ("Unsupported bash construct: " +:+ in_dquotes kind).
Definition unsupported_operator (op : string) : exn :=
  ValueError ("Unsupported bash operator: " +:+ in_dquotes op).
Definition unsupported_compound_node (kind : string) : exn :=
  ValueError ("Unsupported bash node in compound command: "
                +:+ in_dquotes kind).

(** ** The evaluator *)
Section bashlex_eval.

(** The executor's hidden state: whatever running a command can read or
    change besides the environment dictionary. *)
Context {X : Type}.

(** A function that takes a shell command and the environment and returns
    the result.  The callable receives the dictionary object itself, so it
    also returns the dictionary as it left it. *)
Definition EnvironmentExecutor : Type :=
  string → gmap string string → X
  → result string * gmap string string * X.

(** [subprocess.check_output(argv, env=env, universal_newlines=True)]: an
    external process; it does not write to [env]. *)
Variable check_output :
  list string → gmap string string → X → result string * X.

(** The external parser, [bashlex.parsesingle]. *)
Variable parsesingle : string → result ast.node.

(** The state an evaluation runs in: the caller's environment dictionary,
    the executor's world, and (a ghost field) the executor calls made so
    far, each with the dictionary as it was handed over. *)
Record state : Type := mkState {
  st_environment : gmap string string;
  st_world : X;
  st_calls : list (string * gmap string string)
}.

Definition M (A : Type) : Type := state → result A * state.

Definition ret {A} (a : A) : M A := λ σ, (Ok a, σ).
Definition raise {A} (e : exn) : M A := λ σ, (Raise e, σ).
Definition bind {A B} (m : M A) (k : A → M B) : M B :=
  λ σ, match m σ with
       | (Ok a, σ') => k a σ'
       | (Raise e, σ') => (Raise e, σ')
       end.
Definition lift {A} (r : result A) : M A := λ σ, (r, σ).

Notation "x <- m ;; k" := (bind m (λ x, k))
  (at level 100, m at next level, right associativity).

(** [executor(command, environment)] on the shared dictionary. *)
Definition call (executor : EnvironmentExecutor) (command : string)
  : M string :=
  λ σ, let '(r, env', w') :=
         executor command (st_environment σ) (st_world σ) in
       (r, {| st_environment := env';
              st_world := w';
              st_calls := st_calls σ ++ [(command, st_environment σ)] |}).

Definition local_environment_executor : EnvironmentExecutor :=
  λ command env w,
    match shlex.split command with
    | Ok argv => let '(r, w') := check_output argv env w in (r, env, w')
    | Raise e => (Raise e, env, w)
    end.

(** The context's [environment] field is a reference to the dictionary
    held in [st_environment]; the record keeps the two other fields. *)
Record NodeExecutionContext : Type := {
  input : string;
  executor : EnvironmentExecutor
}.

Definition evaluate_parameter_node (node : ast.node)
  (context : NodeExecutionContext) : M string :=
  match ast.value node with
  | Some value =>
      λ σ, (Ok (default EmptyString (st_environment σ !! value)), σ)
  | None => raise (no_attribute "value")
  end.


(** The loop of [evaluate_word_node]: for each part, blank its characters,
    evaluate it, and store the result at the part's first position. *)
Fixpoint blank_letters (letters : list string) (indices : list Z)
  : result (list string) :=
  match indices with
  | [] => Ok letters
  | i :: indices' =>
      result_bind (list_setitem letters i EmptyString)
        (λ letters', blank_letters letters' indices')
  end.

Fixpoint splice_parts (evaluate_node : ast.node → M string)
  (word_start : Z) (parts : list ast.node) (letters : list string)
  : M (list string) :=
  match parts with
  | [] => ret letters
  | part :: parts' =>
      let part_start := ((ast.pos part).1 - word_start)%Z in
      let part_end := ((ast.pos part).2 - word_start)%Z in
      letters <- lift (blank_letters letters (range part_start part_end)) ;;
      v <- evaluate_node part ;;
      letters <- lift (list_setitem letters part_start v) ;;
      splice_parts evaluate_node word_start parts' letters
  end.

Definition evaluate_word_node_with (evaluate_node : ast.node → M string)
  (pos : Z * Z) (parts : list ast.node) (context : NodeExecutionContext)
  : M string :=
  let word_start := pos.1 in
  let word_end := pos.2 in
  let word_string := py_slice (input context) word_start word_end in
  let letters := letters_of word_string in
  letters <- splice_parts evaluate_node word_start parts letters ;;
  (* remove the None letters and concat *)
  let value := join EmptyString letters in
  (* apply bash-like quotes/whitespace treatment *)
  lift (bash_like_treatment value).

(** The loop of [evaluate_nodes_as_compound_command], with its accumulator
    [result]. *)
Fixpoint compound_loop (evaluate_command_node : ast.node → M string)
  (nodes : list ast.node) (result : string) : M string :=
  match nodes with
  | [] => ret result
  | node :: nodes' =>
      match node with
      | ast.CommandNode _ _ =>
          r <- evaluate_command_node node ;;
          compound_loop evaluate_command_node nodes' (result +:+ r)
      | ast.OperatorNode _ op =>
          if bool_decide (op = ";")
          then compound_loop evaluate_command_node nodes' result
          else raise (unsupported_operator op)
      | _ => raise (unsupported_compound_node (ast.kind node))
      end
  end.

(** [[evaluate_node(part) for part in nodes]] *)
Fixpoint evaluate_each (evaluate_node : ast.node → M string)
  (nodes : list ast.node) : M (list string) :=
  match nodes with
  | [] => ret []
  | part :: nodes' =>
      w <- evaluate_node part ;;
      ws <- evaluate_each evaluate_node nodes' ;;
      ret (w :: ws)
  end.

Definition simple_command_with (evaluate_node : ast.node → M string)
  (nodes : list ast.node) (context : NodeExecutionContext) : M string :=
  words <- evaluate_each evaluate_node nodes ;;
  let command := join " " words in
  call (executor context) command.

Definition command_with (evaluate_node evaluate_command_node
                           : ast.node → M string)
  (parts : list ast.node) (context : NodeExecutionContext) : M string :=
  if existsb ast.is_operator parts
  then compound_loop evaluate_command_node parts EmptyString
  else simple_command_with evaluate_node parts context.

Fixpoint evaluate_node (node : ast.node) (context : NodeExecutionContext)
  {struct node} : M string :=
  match node with
  | ast.WordNode pos _ parts =>
      evaluate_word_node_with (λ part, evaluate_node part context)
        pos parts context
  | ast.CommandsubstitutionNode _ command =>
      evaluate_command_node command context
  | ast.ParameterNode _ _ => evaluate_parameter_node node context
  | _ => raise (unsupported_construct (ast.kind node))
  end
with evaluate_command_node (node : ast.node)
  (context : NodeExecutionContext) {struct node} : M string :=
  match node with
  | ast.WordNode _ _ parts | ast.CommandNode _ parts
  | ast.PartsNode _ _ parts =>
      command_with (λ part, evaluate_node part context)
        (λ part, evaluate_command_node part context) parts context
  | _ => raise (no_attribute "parts")
  end.

Definition evaluate_word_node (node : ast.node)
  (context : NodeExecutionContext) : M string :=
  match ast.parts node with
  | Some parts =>
      evaluate_word_node_with (λ part, evaluate_node part context)
        (ast.pos node) parts context
  | None => raise (no_attribute "parts")
  end.

Definition evaluate_nodes_as_compound_command (nodes : list ast.node)
  (context : NodeExecutionContext) : M string :=
  compound_loop (λ node, evaluate_command_node node context)
    nodes EmptyString.

Definition evaluate_nodes_as_simple_command (nodes : list ast.node)
  (context : NodeExecutionContext) : M string :=
  simple_command_with (λ part, evaluate_node part context) nodes context.

Definition initial_state (environment : gmap string string) (world : X)
  : state :=
  {| st_environment := environment; st_world := world; st_calls := [] |}.

(** [evaluate(value, environment, executor)], started in world [world];
    the result comes with the state the call leaves behind. *)
Definition evaluate (value : string) (environment : gmap string string)
  (executor : option EnvironmentExecutor) (world : X)
  : result string * state :=
  let σ := initial_state environment world in
  if bool_decide (value = EmptyString) then
    (* empty string evaluates to empty string (but trips up bashlex) *)
    (Ok EmptyString, σ)
  else
    match parsesingle value with
    | Raise e => (Raise e, σ)
    | Ok command_node =>
        match ast.parts command_node with
        | None => (Raise (no_attribute "parts"), σ)
        | Some parts =>
            match parts with
            | [value_word_node] =>
                evaluate_node value_word_node
                  {| input := value;
                     executor :=
                       default local_environment_executor executor |} σ
            | _ => (Raise (too_many_parts value), σ)
            end
        end
    end.

End bashlex_eval.

Arguments mkState {X} _ _ _.
Arguments st_environment {X} _.
Arguments st_world {X} _.
Arguments st_calls {X} _.

(** The parts of a command evaluate, one after the other, to these words:
    each part is handed to the node evaluator in the state the part before it
    left, and yields one word. *)
Inductive parts_evaluate {X : Type} (context : @NodeExecutionContext X)
  : list ast.node → @state X → list string → @state X → Prop :=
| parts_evaluate_nil σ : parts_evaluate context [] σ [] σ
| parts_evaluate_cons part parts σ word σ1 words σ2 :
    evaluate_node part context σ = (Ok word, σ1) →
    parts_evaluate context parts σ1 words σ2 →
    parts_evaluate context (part :: parts) σ (word :: words) σ2.

(** ** Expressions and executors used in the examples *)
Module fixtures.
Import ast.

Definition Env : Type := gmap string string.

(** ["$FOO"] *)
Definition tree_FOO : node :=
  CommandNode (0, 4)%Z
    [WordNode (0, 4)%Z "$FOO" [ParameterNode (0, 4)%Z "FOO"]].

(** ["$MISSING"] *)
Definition tree_MISSING : node :=
  CommandNode (0, 8)%Z
    [WordNode (0, 8)%Z "$MISSING" [ParameterNode (0, 8)%Z "MISSING"]].

(** ["$(anything)"] *)
Definition tree_anything : node :=
  CommandNode (0, 11)%Z
    [WordNode (0, 11)%Z "$(anything)"
       [CommandsubstitutionNode (0, 11)%Z
          (CommandNode (2, 10)%Z [WordNode (2, 10)%Z "anything" []])]].

(** ["$(cmd)"] *)
Definition tree_cmd : node :=
  CommandNode (0, 6)%Z
    [WordNode (0, 6)%Z "$(cmd)"
       [CommandsubstitutionNode (0, 6)%Z
          (CommandNode (2, 5)%Z [WordNode (2, 5)%Z "cmd" []])]].

(** ["$(echo a; echo b)"] *)
Definition tree_echo_a_echo_b : node :=
  CommandNode (0, 17)%Z
    [WordNode (0, 17)%Z "$(echo a; echo b)"
       [CommandsubstitutionNode (0, 17)%Z
          (PartsNode k_list (2, 16)%Z
             [CommandNode (2, 8)%Z
                [WordNode (2, 6)%Z "echo" []; WordNode (7, 8)%Z "a" []];
              OperatorNode (8, 9)%Z ";";
              CommandNode (10, 16)%Z
                [WordNode (10, 14)%Z "echo" []; WordNode (15, 16)%Z "b" []]])]].

(** [false && true] between backquotes.  Inside [$( )] bashlex accepts no
    operator but [;] and raises a parsing error on this command; between
    backquotes the command is parsed on its own and the list comes out. *)
Definition s_backquoted_false_and_true : string := "`false && true`".
Definition tree_backquoted_false_and_true : node :=
  CommandNode (0, 15)%Z
    [WordNode (0, 15)%Z s_backquoted_false_and_true
       [CommandsubstitutionNode (0, 15)%Z
          (PartsNode k_list (1, 14)%Z
             [CommandNode (1, 6)%Z [WordNode (1, 6)%Z "false" []];
              OperatorNode (7, 9)%Z "&&";
              CommandNode (10, 14)%Z [WordNode (10, 14)%Z "true" []]])]].

(** ["$(echo $FOO b)"]: a command of three words, the second a parameter *)
Definition tree_echo_FOO_b : node :=
  CommandNode (0, 14)%Z
    [WordNode (0, 14)%Z "$(echo $FOO b)"
       [CommandsubstitutionNode (0, 14)%Z
          (CommandNode (2, 13)%Z
             [WordNode (2, 6)%Z "echo" [];
              WordNode (7, 11)%Z "$FOO" [ParameterNode (7, 11)%Z "FOO"];
              WordNode (12, 13)%Z "b" []])]].

(** ["(a)"]: a subshell is a compound node, which has a [list] and no
    [parts] *)
Definition tree_subshell : node := LeafNode k_compound (0, 3)%Z.

(** ["  a   b  "]: unquoted blanks separate words, so this is two words *)
Definition s_spaced_a_b : string := "  a   b  ".
Definition tree_spaced_a_b : node :=
  CommandNode (2, 7)%Z [WordNode (2, 3)%Z "a" []; WordNode (6, 7)%Z "b" []].

(** ['a'], the letter a between single quotes: one word *)
Definition s_dont : string := "don" +:+ char squote +:+ "t".
Definition s_quoted_a : string := char squote +:+ "a" +:+ char squote.
Definition tree_quoted_a : node :=
  CommandNode (0, 3)%Z [WordNode (0, 3)%Z "a" []].

(** ["'a'"], the same between double quotes: one word *)
Definition s_dquoted_quoted_a : string :=
  char dquote +:+ s_quoted_a +:+ char dquote.
Definition tree_dquoted_quoted_a : node :=
  CommandNode (0, 5)%Z [WordNode (0, 5)%Z s_quoted_a []].

Definition parsing_error (value : string) : exn :=
  OtherException "ParsingError" value.

(** What [bashlex.parsesingle] returns on the expressions above. *)
Definition parse_table : list (string * node) :=
  [("$FOO", tree_FOO); ("$MISSING", tree_MISSING);
   ("$(anything)", tree_anything); ("$(cmd)", tree_cmd);
   ("$(echo a; echo b)", tree_echo_a_echo_b);
   (s_backquoted_false_and_true, tree_backquoted_false_and_true);
   ("$(echo $FOO b)", tree_echo_FOO_b); ("(a)", tree_subshell);
   (s_spaced_a_b, tree_spaced_a_b); (s_quoted_a, tree_quoted_a);
   (s_dquoted_quoted_a, tree_dquoted_quoted_a)].

Definition parsesingle_table (value : string) : result node :=
  match list_find (λ entry, entry.1 = value) parse_table with
  | Some (_, (_, tree)) => Ok tree
  | None => Raise (parsing_error value)
  end.

(** Executors without hidden state. *)
Definition constant_executor (output : string)
  : @EnvironmentExecutor unit :=
  λ _ env w, (Ok output, env, w).

Definition echo_executor : @EnvironmentExecutor unit :=
  λ command env w, (Ok command, env, w).

Definition failing_executor : @EnvironmentExecutor unit :=
  λ command env w,
    (Raise (OtherException "CalledProcessError" command), env, w).

Definition no_process : list string → Env → unit → result string * unit :=
  λ argv _ w, (Raise (OtherException "FileNotFoundError" (join " " argv)), w).

Definition run (value : string) (environment : Env)
  (executor : @EnvironmentExecutor unit) : result string * state :=
  evaluate no_process parsesingle_table value environment (Some executor) tt.

End fixtures.


(** ** Unquoted text

    Vocabulary for the statements about whitespace: a plain character is
    neither whitespace nor a quote nor the escape character; an unquoted text
    is a sequence of fields, each a run of blanks followed by a non-empty
    word of plain characters, with blanks at the end. *)
Fixpoint all_chars (P : ascii → bool) (s : string) : bool :=
  match s with
  | EmptyString => true
  | String c s' => P c && all_chars P s'
  end.

Definition plain (c : ascii) : bool :=
  negb (py_isspace c) && negb (shlex.quotes c) && negb (shlex.escape c).

Definition nonempty (s : string) : bool :=
  match s with
  | EmptyString => false
  | String _ _ => true
  end.

Definition plain_word (s : string) : bool := nonempty s && all_chars plain s.

Definition blanks (s : string) : bool := all_chars shlex.whitespace s.

Fixpoint spaced (fields : list (string * string)) (trailing : string)
  : string :=
  match fields with
  | [] => trailing
  | (blank, word) :: fields' => blank +:+ word +:+ spaced fields' trailing
  end.

(** Every field after the first starts with at least one blank. *)
Definition separated (fields : list (string * string)) : bool :=
  forallb (λ field, nonempty field.1 && blanks field.1 && plain_word field.2)
    fields.

Definition well_spaced (fields : list (string * string)) (trailing : string)
  : bool :=
  match fields with
  | [] => blanks trailing
  | (blank, word) :: fields' =>
      blanks blank && plain_word word && separated fields' && blanks trailing
  end.

(** ** Further vocabulary *)

(** The kinds the node evaluator dispatches on. *)
Definition supported_kind (kind : string) : bool :=
  bool_decide (kind ∈ ["word"; "commandsubstitution"; "parameter"]).

(** No command substitution is reached when the node evaluator walks the
    node: a word has none among its parts, recursively. *)
Fixpoint no_substitution (node : ast.node) : bool :=
  match node with
  | ast.WordNode _ _ parts => forallb no_substitution parts
  | ast.CommandsubstitutionNode _ _ => false
  | _ => true
  end.

(** A word node without parts whose span of the input is the plain word
    [text]. *)
Definition plain_word_at (input : string) (node : ast.node) (text : string)
  : Prop :=
  ∃ pos word,
    node = ast.WordNode pos word []
    ∧ py_slice input pos.1 pos.2 = text
    ∧ plain_word text = true.

(** Segments with a backslash before each, and the same without. *)
Definition escaped (segments : list string) : string :=
  join EmptyString ((λ segment, char backslash +:+ segment) <$> segments).

Definition unescaped (segments : list string) : string :=
  join EmptyString segments.

(** Two computations that leave the state alone and agree with each other. *)
Definition pure_and_equal {X : Type} (m1 m2 : @M X string) : Prop :=
  ∀ σ, (m1 σ).2 = σ ∧ m1 σ = m2 σ.

(** Executors and trees for the examples of the second part. *)
Module samples.
Import ast.

(** Fails on the command line [bad], echoes any other. *)
Definition selective_executor (bad : string) : @EnvironmentExecutor unit :=
  λ command env w,
    if bool_decide (command = bad)
    then (Raise (OtherException "CalledProcessError" command), env, w)
    else (Ok command, env, w).

(** A process runner that prints its argv, one argument per line. *)
Definition argv_lines : list string → gmap string string → unit
                        → result string * unit :=
  λ argv _ w, (Ok (join (char (ascii_of_nat 10)) argv), w).

(** ["A=1"]: a command whose only part is an assignment *)
Definition tree_assignment : node :=
  CommandNode (0, 3)%Z [PartsNode k_assignment (0, 3)%Z []].

(** The parts of [a | b] inside a substitution at offset 2: a pipeline *)
Definition parts_pipeline : list node :=
  [CommandNode (2, 3)%Z [WordNode (2, 3)%Z "a" []];
   LeafNode k_pipe (4, 5)%Z;
   CommandNode (6, 7)%Z [WordNode (6, 7)%Z "b" []]].

End samples.

(** An executor that leaves the dictionary it is handed as it found it. *)
Definition preserves_environment {X : Type}
  (executor : @EnvironmentExecutor X) : Prop :=
  ∀ command env w, (executor command env w).1.2 = env.

(** A computation that leaves the environment dictionary as it found it,
    whether it returns or raises. *)
Definition frames_environment {X A : Type} (m : @M X A) : Prop :=
  ∀ σ, st_environment (m σ).2 = st_environment σ.

Import fixtures.
Import samples.

(** * Properties *)

(** ** Induction over syntax trees, through the lists of parts *)
Lemma node_nested_ind (P : ast.node → Prop) :
  (∀ pos word parts, Forall P parts → P (ast.WordNode pos word parts)) →
  (∀ pos value, P (ast.ParameterNode pos value)) →
  (∀ pos command, P command → P (ast.CommandsubstitutionNode pos command)) →
  (∀ pos parts, Forall P parts → P (ast.CommandNode pos parts)) →
  (∀ pos op, P (ast.OperatorNode pos op)) →
  (∀ k pos parts, Forall P parts → P (ast.PartsNode k pos parts)) →
  (∀ k pos, P (ast.LeafNode k pos)) →
  ∀ n, P n.
Proof.
  intros Hword Hparam Hsubst Hcmd Hop Hparts Hleaf.
  fix IH 1.
  assert (Hall : ∀ l, Forall P l).
  { fix IHl 1. intros [|n l]; constructor; [apply IH | apply IHl]. }
  intros [pos w parts|pos v|pos c|pos parts|pos op|k pos parts|k pos].
  - apply Hword, Hall.
  - apply Hparam.
  - apply Hsubst, IH.
  - apply Hcmd, Hall.
  - apply Hop.
  - apply Hparts, Hall.
  - apply Hleaf.
Qed.

(** ** Unfolding equations of the evaluator *)
Section equations.
Context {X : Type}.
Variable check_output :
  list string → gmap string string → X → result string * X.
Variable parsesingle : string → result ast.node.
Implicit Types (context : @NodeExecutionContext X) (σ : @state X).

Lemma evaluate_node_word pos word parts context :
  evaluate_node (ast.WordNode pos word parts) context
  = evaluate_word_node (ast.WordNode pos word parts) context.
Proof. reflexivity. Qed.

Lemma evaluate_node_commandsubstitution pos command context :
  evaluate_node (ast.CommandsubstitutionNode pos command) context
  = evaluate_command_node command context.
Proof. reflexivity. Qed.

Lemma evaluate_command_node_simple node parts context :
  ast.parts node = Some parts →
  existsb ast.is_operator parts = false →
  evaluate_command_node node context
  = evaluate_nodes_as_simple_command parts context.
Proof.
  intros Hparts Hop.
  destruct node; simplify_eq/=;
    unfold command_with; rewrite Hop; reflexivity.
Qed.

Lemma evaluate_command_node_compound node parts context :
  ast.parts node = Some parts →
  existsb ast.is_operator parts = true →
  evaluate_command_node node context
  = evaluate_nodes_as_compound_command parts context.
Proof.
  intros Hparts Hop.
  destruct node; simplify_eq/=;
    unfold command_with; rewrite Hop; reflexivity.
Qed.

Lemma bind_ok {A B} (m : M A) (k : A → M B) σ a σ' :
  m σ = (Ok a, σ') → bind m k σ = k a σ'.
Proof. unfold bind. intros ->. reflexivity. Qed.

Lemma bind_raise {A B} (m : M A) (k : A → M B) σ e σ' :
  m σ = (Raise e, σ') → bind m k σ = (Raise e, σ').
Proof. unfold bind. intros ->. reflexivity. Qed.

End equations.

(** ** The empty expression *)

(** C8: for every environment, executor and parser, the empty expression
    evaluates to the empty string; the parser is not consulted (the result is
    the same whatever the parser would do) and nothing is executed. *)
Theorem evaluate_empty_string {X : Type}
  (check_output : list string → gmap string string → X → result string * X)
  (parsesingle : string → result ast.node)
  (environment : gmap string string)
  (executor : option EnvironmentExecutor) (world : X) :
  evaluate check_output parsesingle EmptyString environment executor world
  = (Ok EmptyString, initial_state environment world).
Proof. reflexivity. Qed.

(** ** Parameters *)

(** C6: a parameter node evaluates to the value its name is mapped to in the
    environment, or to the empty string when the name is absent; it never
    raises and leaves the state alone.  [evaluate] on [$FOO] with FOO mapped
    to bar gives bar, and on [$MISSING] with the empty environment gives the
    empty string. *)
Theorem parameter_lookup :
  (∀ (X : Type) pos name (context : @NodeExecutionContext X) (σ : state),
      evaluate_node (ast.ParameterNode pos name) context σ
      = (Ok (match st_environment σ !! name with
             | Some v => v
             | None => EmptyString
             end), σ))
  ∧ run "$FOO" {[ "FOO" := "bar" ]} failing_executor
    = (Ok "bar", initial_state {[ "FOO" := "bar" ]} tt)
  ∧ run "$MISSING" ∅ failing_executor = (Ok EmptyString, initial_state ∅ tt).
Proof.
  split; [|split].
  - intros X pos name context σ. simpl. unfold evaluate_parameter_node. simpl.
    destruct (st_environment σ !! name); reflexivity.
  - vm_compute. reflexivity.
  - vm_compute. reflexivity.
Qed.

(** ** The top-level part count *)

(** C5: the check of the part count misses the parse results that have no
    list of parts.  The subshell [(a)] is a non-empty expression with no
    top-level word; bashlex returns it as a compound node, and [evaluate]
    raises the attribute error of the access to [parts], not the error that
    quotes the expression. *)
Theorem evaluate_subshell_attribute_error :
  parsesingle_table "(a)" = Ok (ast.LeafNode ast.k_compound (0, 3)%Z)
  ∧ ast.parts (ast.LeafNode ast.k_compound (0, 3)%Z) = None
  ∧ run "(a)" ∅ echo_executor
    = (Raise (AttributeError "'node' object has no attribute 'parts'"),
       {| st_environment := ∅; st_world := tt; st_calls := [] |})
  ∧ (run "(a)" ∅ echo_executor).1
    ≠ Raise (ValueError (in_dquotes "(a)" +:+ " has too many parts")).
Proof.
  split; [vm_compute; reflexivity|]. split; [reflexivity|].
  split; [vm_compute; reflexivity|]. vm_compute. discriminate.
Qed.

(** X13: for a non-empty expression whose parse has a list of top-level
    parts of a length other than one, [evaluate] raises the error that
    quotes the expression; the state is the initial one, so the environment
    is intact, the executor was never called and its world did not move. *)
Theorem evaluate_rejects_part_count {X : Type}
  (check_output : list string → gmap string string → X → result string * X)
  (parsesingle : string → result ast.node)
  (value : string) (environment : gmap string string)
  (executor : option EnvironmentExecutor) (world : X)
  (command_node : ast.node) (parts : list ast.node) :
  value ≠ EmptyString →
  parsesingle value = Ok command_node →
  ast.parts command_node = Some parts →
  length parts ≠ 1 →
  evaluate check_output parsesingle value environment executor world
  = (Raise (ValueError (in_dquotes value +:+ " has too many parts")),
     {| st_environment := environment; st_world := world; st_calls := [] |}).
Proof.
  intros Hne Hparse Hparts Hlen. unfold evaluate.
  rewrite bool_decide_eq_false_2 by done.
  rewrite Hparse, Hparts.
  destruct parts as [|p [|q parts]]; simpl in Hlen; try done.
Qed.

Lemma evaluate_rejects_part_count_witness :
  evaluate no_process parsesingle_table s_spaced_a_b ∅
    (Some echo_executor) tt
  = (Raise (ValueError (in_dquotes s_spaced_a_b +:+ " has too many parts")),
     {| st_environment := ∅; st_world := tt; st_calls := [] |}).
Proof.
  apply (evaluate_rejects_part_count no_process parsesingle_table
           s_spaced_a_b ∅ (Some echo_executor) tt tree_spaced_a_b
           [ast.WordNode (2, 3)%Z "a" []; ast.WordNode (6, 7)%Z "b" []]).
  - discriminate.
  - vm_compute. reflexivity.
  - reflexivity.
  - simpl. lia.
Defined.

(** ** Simple commands *)
Section part_sequences.
Context {X : Type}.
Implicit Types (context : @NodeExecutionContext X) (σ : @state X).

(** The parts of a simple command are evaluated from the left: once a
    prefix has evaluated, the rest is evaluated from the state it left. *)
Lemma evaluate_each_app (ev : ast.node → @M X string) pre rest σ words σ' :
  evaluate_each ev pre σ = (Ok words, σ') →
  evaluate_each ev (pre ++ rest) σ
  = match evaluate_each ev rest σ' with
    | (Ok words', σ'') => (Ok (words ++ words'), σ'')
    | (Raise e, σ'') => (Raise e, σ'')
    end.
Proof.
  revert σ words. induction pre as [|n pre IH]; intros σ words Hpre.
  - cbn [evaluate_each] in Hpre. unfold ret in Hpre. simplify_eq.
    cbn [app]. by destruct (evaluate_each ev rest σ') as [[ws|e] σ''].
  - cbn [evaluate_each app] in Hpre |- *.
    destruct (ev n σ) as [[w|e] σ1] eqn:Hn.
    + rewrite (bind_ok _ _ σ w σ1 Hn) in Hpre.
      rewrite (bind_ok _ _ σ w σ1 Hn).
      destruct (evaluate_each ev pre σ1) as [[ws|e] σ2] eqn:Hrest.
      * rewrite (bind_ok _ _ σ1 ws σ2 Hrest) in Hpre.
        unfold ret in Hpre. simplify_eq.
        unfold bind. rewrite (IH σ1 ws Hrest).
        by destruct (evaluate_each ev rest σ') as [[ws'|e] σ''].
      * by rewrite (bind_raise _ _ σ1 e σ2 Hrest) in Hpre.
    + by rewrite (bind_raise _ _ σ e σ1 Hn) in Hpre.
Qed.

(** The list comprehension of the simple command runs the node evaluator on
    every part, in order. *)
Lemma parts_evaluate_each context nodes σ words σ' :
  parts_evaluate context nodes σ words σ' →
  evaluate_each (λ part, evaluate_node part context) nodes σ = (Ok words, σ').
Proof.
  induction 1 as [σ|part parts σ word σ1 words σ2 Hpart _ IH]; [done|].
  cbn [evaluate_each].
  rewrite (bind_ok _ _ σ word σ1 Hpart).
  by rewrite (bind_ok _ _ σ1 words σ2 IH).
Qed.

End part_sequences.

(** C2: a command substitution around a command without operators hands
    every part to the node evaluator, from left to right, each in the state
    the part before it left.  If all parts evaluate, the words are joined
    with single spaces, the context's executor is called once with that
    command line and the environment dictionary, and what the executor
    returns (or raises) is the result, unchanged.  If a part raises, its
    error is the result and the executor is not called for the command.
    With an executor that prints X Y whatever the command, [evaluate] on
    [$(anything)] returns X Y after one call, for the command line anything;
    with an executor that returns its command line and FOO set to a,
    [$(echo $FOO b)] runs the command line echo a b. *)
Theorem simple_command_substitution :
  (∀ (X : Type) (context : @NodeExecutionContext X) pos pos' nodes
     (σ σ' : state) (words : list string),
      existsb ast.is_operator nodes = false →
      parts_evaluate context nodes σ words σ' →
      let command := join " " words in
      let r := executor context command (st_environment σ') (st_world σ') in
      evaluate_node
        (ast.CommandsubstitutionNode pos (ast.CommandNode pos' nodes))
        context σ
      = (r.1.1,
         {| st_environment := r.1.2;
            st_world := r.2;
            st_calls := st_calls σ' ++ [(command, st_environment σ')] |}))
  ∧ (∀ (X : Type) (context : @NodeExecutionContext X) pos pos'
       before part after (σ σ' σ'' : state) (words : list string) (e : exn),
        existsb ast.is_operator (before ++ part :: after) = false →
        parts_evaluate context before σ words σ' →
        evaluate_node part context σ' = (Raise e, σ'') →
        evaluate_node
          (ast.CommandsubstitutionNode pos
             (ast.CommandNode pos' (before ++ part :: after)))
          context σ
        = (Raise e, σ''))
  ∧ run "$(anything)" ∅ (constant_executor "X Y")
    = (Ok "X Y",
       {| st_environment := ∅; st_world := tt;
          st_calls := [("anything", ∅)] |})
  ∧ run "$(echo $FOO b)" {[ "FOO" := "a" ]} echo_executor
    = (Ok "echo a b",
       {| st_environment := {[ "FOO" := "a" ]}; st_world := tt;
          st_calls := [("echo a b", {[ "FOO" := "a" ]})] |}).
Proof.
  split; [|split; [|split]].
  - intros X context pos pos' nodes σ σ' words Hop Hwords command r.
    apply parts_evaluate_each in Hwords.
    rewrite evaluate_node_commandsubstitution.
    rewrite (evaluate_command_node_simple _ nodes) by done.
    unfold evaluate_nodes_as_simple_command, simple_command_with.
    rewrite (bind_ok _ _ _ _ _ Hwords).
    unfold call. subst r command.
    destruct (executor context _ _ _) as [[out env'] w']. reflexivity.
  - intros X context pos pos' before part after σ σ' σ'' words e
      Hop Hwords Hpart.
    apply parts_evaluate_each in Hwords.
    rewrite evaluate_node_commandsubstitution.
    rewrite (evaluate_command_node_simple _ (before ++ part :: after))
      by done.
    unfold evaluate_nodes_as_simple_command, simple_command_with.
    apply bind_raise.
    rewrite (evaluate_each_app _ _ _ _ _ _ Hwords).
    cbn [evaluate_each]. by rewrite (bind_raise _ _ σ' e σ'' Hpart).
  - vm_compute. reflexivity.
  - vm_compute. reflexivity.
Qed.

Lemma simple_command_substitution_witness :
  evaluate_node
    (ast.CommandsubstitutionNode (0, 14)%Z
       (ast.CommandNode (2, 13)%Z
          [ast.WordNode (2, 6)%Z "echo" [];
           ast.WordNode (7, 11)%Z "$FOO" [ast.ParameterNode (7, 11)%Z "FOO"];
           ast.WordNode (12, 13)%Z "b" []]))
    {| input := "$(echo $FOO b)"; executor := echo_executor |}
    (initial_state {[ "FOO" := "a" ]} tt)
  = (Ok "echo a b",
     {| st_environment := {[ "FOO" := "a" ]}; st_world := tt;
        st_calls := [("echo a b", {[ "FOO" := "a" ]})] |}).
Proof.
  rewrite (proj1 simple_command_substitution unit
             {| input := "$(echo $FOO b)"; executor := echo_executor |}
             (0, 14)%Z (2, 13)%Z
             [ast.WordNode (2, 6)%Z "echo" [];
              ast.WordNode (7, 11)%Z "$FOO"
                [ast.ParameterNode (7, 11)%Z "FOO"];
              ast.WordNode (12, 13)%Z "b" []]
             (initial_state {[ "FOO" := "a" ]} tt)
             (initial_state {[ "FOO" := "a" ]} tt) ["echo"; "a"; "b"]).
  - vm_compute. reflexivity.
  - reflexivity.
  - repeat (eapply parts_evaluate_cons; [vm_compute; reflexivity|]).
    apply parts_evaluate_nil.
Defined.

(** ** Compound commands *)

Lemma string_app_cons (x : ascii) (a b : string) :
  String x a +:+ b = String x (a +:+ b).
Proof. reflexivity. Qed.

Lemma string_app_nil_l (a : string) : EmptyString +:+ a = a.
Proof. reflexivity. Qed.

Lemma string_app_assoc (a b c : string) : (a +:+ b) +:+ c = a +:+ (b +:+ c).
Proof.
  induction a as [|x a IH]; [done|].
  by rewrite !string_app_cons, IH.
Qed.

Lemma string_app_nil_r (a : string) : a +:+ EmptyString = a.
Proof.
  induction a as [|x a IH]; [done|].
  by rewrite string_app_cons, IH.
Qed.

Lemma join_empty_cons (x : string) (xs : list string) :
  join EmptyString (x :: xs) = x +:+ join EmptyString xs.
Proof.
  unfold join. destruct xs as [|y ys]; cbn.
  - by rewrite string_app_nil_r.
  - reflexivity.
Qed.

Section compound.
Context {X : Type}.
Implicit Types (context : @NodeExecutionContext X) (σ : @state X).

(** The loop with an arbitrary accumulator, on commands and [;] only. *)
Lemma compound_loop_sequence (ev : ast.node → M string) nodes :
  forallb (λ n, ast.is_command n || ast.is_semicolon n) nodes = true →
  ∀ (acc : string) σ,
    compound_loop ev nodes acc σ
    = match evaluate_each ev (List.filter ast.is_command nodes) σ with
      | (Ok outputs, σ') => (Ok (acc +:+ join EmptyString outputs), σ')
      | (Raise e, σ') => (Raise e, σ')
      end.
Proof.
  induction nodes as [|n nodes IH]; intros Hall acc σ.
  - simpl. unfold ret. by rewrite string_app_nil_r.
  - simpl in Hall. apply andb_prop in Hall as [Hn Hall].
    destruct n as [| | |pos parts|pos op| |]; simpl in Hn; try done.
    + cbn [compound_loop List.filter ast.is_command evaluate_each].
      destruct (ev (ast.CommandNode pos parts) σ) as [[r|e] σ1] eqn:Hev.
      * rewrite !(bind_ok _ _ σ r σ1 Hev), IH by done.
        destruct (evaluate_each ev _ σ1) as [[outs|e] σ2] eqn:Hrest.
        -- rewrite (bind_ok _ _ σ1 outs σ2 Hrest). unfold ret.
           by rewrite join_empty_cons, string_app_assoc.
        -- by rewrite (bind_raise _ _ σ1 e σ2 Hrest).
      * by rewrite !(bind_raise _ _ σ e σ1 Hev).
    + cbn [compound_loop List.filter ast.is_command].
      rewrite Hn. by apply IH.
Qed.

(** The loop stops with an error at the latest when it meets an operator
    other than [;]. *)
Lemma compound_loop_never_returns (ev : ast.node → M string)
  pre pos op post :
  op ≠ ";" →
  ∀ (acc : string) σ,
    ∃ e σ', compound_loop ev (pre ++ ast.OperatorNode pos op :: post) acc σ
            = (Raise e, σ').
Proof.
  intros Hop. induction pre as [|n pre IH]; intros acc σ.
  - simpl. rewrite bool_decide_eq_false_2 by done. unfold raise. eauto.
  - destruct n as [| | |pos' parts|pos' op'| |];
      cbn [app compound_loop]; unfold raise; eauto.
    + unfold bind.
      destruct (ev (ast.CommandNode pos' parts) σ) as [[r|e] σ1]; eauto.
    + case_bool_decide; eauto.
Qed.

(** Up to the first operator other than [;], the loop runs the commands;
    at that operator it raises. *)
Lemma compound_loop_unsupported (ev : ast.node → M string)
  pre pos op post :
  op ≠ ";" →
  forallb (λ n, ast.is_command n || ast.is_semicolon n) pre = true →
  ∀ (acc : string) σ outputs σ',
    evaluate_each ev (List.filter ast.is_command pre) σ = (Ok outputs, σ') →
    compound_loop ev (pre ++ ast.OperatorNode pos op :: post) acc σ
    = (Raise (unsupported_operator op), σ').
Proof.
  intros Hop.
  induction pre as [|n pre IH]; intros Hpre acc σ outputs σ' Hrun.
  - cbn [List.filter evaluate_each] in Hrun. unfold ret in Hrun.
    simplify_eq. cbn [app compound_loop].
    rewrite bool_decide_eq_false_2 by done. reflexivity.
  - simpl in Hpre. apply andb_prop in Hpre as [Hn Hpre].
    destruct n as [| | |pos' parts|pos' op'| |]; simpl in Hn; try done.
    + cbn [app compound_loop].
      cbn [List.filter ast.is_command evaluate_each] in Hrun.
      destruct (ev (ast.CommandNode pos' parts) σ) as [[r|e] σ1] eqn:Hev.
      * rewrite (bind_ok _ _ σ r σ1 Hev) in Hrun.
        rewrite (bind_ok _ _ σ r σ1 Hev).
        destruct (evaluate_each ev (List.filter ast.is_command pre) σ1)
          as [[outs|e] σ2] eqn:Hrest.
        -- rewrite (bind_ok _ _ σ1 outs σ2 Hrest) in Hrun.
           unfold ret in Hrun. simplify_eq. by eapply IH.
        -- by rewrite (bind_raise _ _ σ1 e σ2 Hrest) in Hrun.
      * by rewrite (bind_raise _ _ σ e σ1 Hev) in Hrun.
    + cbn [app compound_loop]. rewrite Hn.
      cbn [List.filter ast.is_command] in Hrun. by eapply IH.
Qed.

(** The compound loop over a prefix of commands and [;] that evaluate
    without error continues on the rest with their outputs accumulated. *)
Lemma compound_loop_prefix (ev : ast.node → @M X string) pre rest :
  forallb (λ n, ast.is_command n || ast.is_semicolon n) pre = true →
  ∀ (acc : string) σ outputs σ',
    evaluate_each ev (List.filter ast.is_command pre) σ = (Ok outputs, σ') →
    compound_loop ev (pre ++ rest) acc σ
    = compound_loop ev rest (acc +:+ join EmptyString outputs) σ'.
Proof.
  induction pre as [|n pre IH]; intros Hpre acc σ outputs σ' Hrun.
  - cbn [List.filter evaluate_each] in Hrun. unfold ret in Hrun.
    simplify_eq. cbn [app]. unfold join. cbn [concat].
    by rewrite string_app_nil_r.
  - simpl in Hpre. apply andb_prop in Hpre as [Hn Hpre].
    destruct n as [| | |pos' parts|pos' op'| |]; simpl in Hn; try done.
    + cbn [app compound_loop].
      cbn [List.filter ast.is_command evaluate_each] in Hrun.
      destruct (ev (ast.CommandNode pos' parts) σ) as [[r|e] σ1] eqn:Hev.
      * rewrite (bind_ok _ _ σ r σ1 Hev) in Hrun.
        rewrite (bind_ok _ _ σ r σ1 Hev).
        destruct (evaluate_each ev (List.filter ast.is_command pre) σ1)
          as [[outs|e] σ2] eqn:Hrest.
        -- rewrite (bind_ok _ _ σ1 outs σ2 Hrest) in Hrun.
           unfold ret in Hrun. simplify_eq.
           rewrite (IH Hpre _ σ1 outs σ' Hrest).
           by rewrite join_empty_cons, string_app_assoc.
        -- by rewrite (bind_raise _ _ σ1 e σ2 Hrest) in Hrun.
      * by rewrite (bind_raise _ _ σ e σ1 Hev) in Hrun.
    + cbn [app compound_loop]. rewrite Hn.
      cbn [List.filter ast.is_command] in Hrun. by eapply IH.
Qed.

End compound.

(** C3: on a list of commands and [;] operators, the compound evaluator runs
    the commands from left to right (each through the command evaluator, the
    state threaded) and returns their outputs concatenated without a
    separator; the [;] nodes contribute nothing.  With an executor that
    returns its command line, [evaluate] on [$(echo a; echo b)] calls the
    executor for echo a, then for echo b, and the two outputs come out glued
    in that order. *)
Theorem compound_command_sequence :
  (∀ (X : Type) (context : @NodeExecutionContext X) nodes (σ : state),
      forallb (λ n, ast.is_command n || ast.is_semicolon n) nodes = true →
      evaluate_nodes_as_compound_command nodes context σ
      = match evaluate_each (λ n, evaluate_command_node n context)
                (List.filter ast.is_command nodes) σ with
        | (Ok outputs, σ') => (Ok (join EmptyString outputs), σ')
        | (Raise e, σ') => (Raise e, σ')
        end)
  ∧ run "$(echo a; echo b)" ∅ echo_executor
    = (Ok ("echo a" +:+ "echo b"),
       {| st_environment := ∅; st_world := tt;
          st_calls := [("echo a", ∅); ("echo b", ∅)] |}).
Proof.
  split.
  - intros X context nodes σ Hall.
    unfold evaluate_nodes_as_compound_command.
    rewrite compound_loop_sequence by done.
    destruct (evaluate_each _ _ σ) as [[outs|e] σ']; reflexivity.
  - vm_compute. reflexivity.
Qed.

Lemma compound_command_sequence_witness :
  evaluate_nodes_as_compound_command
    [ast.CommandNode (2, 8)%Z
       [ast.WordNode (2, 6)%Z "echo" []; ast.WordNode (7, 8)%Z "a" []];
     ast.OperatorNode (8, 9)%Z ";";
     ast.CommandNode (10, 16)%Z
       [ast.WordNode (10, 14)%Z "echo" []; ast.WordNode (15, 16)%Z "b" []]]
    {| input := "$(echo a; echo b)"; executor := echo_executor |}
    (initial_state ∅ tt)
  = (Ok "echo aecho b",
     {| st_environment := ∅; st_world := tt;
        st_calls := [("echo a", ∅); ("echo b", ∅)] |}).
Proof.
  rewrite (proj1 compound_command_sequence unit
             {| input := "$(echo a; echo b)"; executor := echo_executor |}).
  - vm_compute. reflexivity.
  - reflexivity.
Defined.

(** C4, as the code has it: a compound command that contains an operator
    other than [;] never returns a result.  The parts are walked from the
    left, so the commands before that operator are executed first.  When the
    parts before it are commands that evaluate without error and [;]
    operators, the error is the one that names the operator, whatever those
    commands returned and whatever follows the operator.  When one of the
    commands before it raises (the commands and [;] before that one having
    evaluated), that command's error is the error of the compound command,
    in the state that command left, and the operator is never looked at. *)
Theorem unsupported_operator_rejected {X : Type}
  (context : @NodeExecutionContext X) (pre post : list ast.node)
  (pos : Z * Z) (op : string) (σ : state) :
  op ≠ ";" →
  (∃ e σ',
      evaluate_nodes_as_compound_command
        (pre ++ ast.OperatorNode pos op :: post) context σ = (Raise e, σ'))
  ∧ (∀ outputs σ',
        forallb (λ n, ast.is_command n || ast.is_semicolon n) pre = true →
        evaluate_each (λ n, evaluate_command_node n context)
          (List.filter ast.is_command pre) σ = (Ok outputs, σ') →
        evaluate_nodes_as_compound_command
          (pre ++ ast.OperatorNode pos op :: post) context σ
        = (Raise (ValueError
                    ("Unsupported bash operator: " +:+ in_dquotes op)), σ'))
  ∧ (∀ before pos' parts after outputs σ1 e σ2,
        pre = before ++ ast.CommandNode pos' parts :: after →
        forallb (λ n, ast.is_command n || ast.is_semicolon n) before = true →
        evaluate_each (λ n, evaluate_command_node n context)
          (List.filter ast.is_command before) σ = (Ok outputs, σ1) →
        evaluate_command_node (ast.CommandNode pos' parts) context σ1
        = (Raise e, σ2) →
        evaluate_nodes_as_compound_command
          (pre ++ ast.OperatorNode pos op :: post) context σ
        = (Raise e, σ2)).
Proof.
  intros Hop. split; [|split].
  - by apply compound_loop_never_returns.
  - intros outputs σ' Hpre Hrun.
    by eapply compound_loop_unsupported.
  - intros before pos' parts after outputs σ1 e σ2 -> Hbefore Hrun Hfail.
    unfold evaluate_nodes_as_compound_command. rewrite <- app_assoc.
    rewrite (compound_loop_prefix _ before _ Hbefore _ σ outputs σ1 Hrun).
    cbn [app compound_loop]. by apply bind_raise.
Qed.

Lemma unsupported_operator_rejected_witness :
  evaluate_nodes_as_compound_command
    ([ast.CommandNode (1, 6)%Z [ast.WordNode (1, 6)%Z "false" []]]
       ++ ast.OperatorNode (7, 9)%Z "&&"
       :: [ast.CommandNode (10, 14)%Z [ast.WordNode (10, 14)%Z "true" []]])
    {| input := "`false && true`"; executor := echo_executor |}
    (initial_state ∅ tt)
  = (Raise (ValueError ("Unsupported bash operator: " +:+ in_dquotes "&&")),
     {| st_environment := ∅; st_world := tt;
        st_calls := [("false", ∅)] |})
  ∧ evaluate_nodes_as_compound_command
      ([ast.CommandNode (1, 6)%Z [ast.WordNode (1, 6)%Z "false" []]]
         ++ ast.OperatorNode (7, 9)%Z "&&"
         :: [ast.CommandNode (10, 14)%Z [ast.WordNode (10, 14)%Z "true" []]])
      {| input := "`false && true`"; executor := failing_executor |}
      (initial_state ∅ tt)
    = (Raise (OtherException "CalledProcessError" "false"),
       {| st_environment := ∅; st_world := tt;
          st_calls := [("false", ∅)] |}).
Proof.
  split.
  - apply (proj1 (proj2 (unsupported_operator_rejected
                    {| input := "`false && true`";
                       executor := echo_executor |}
                    [ast.CommandNode (1, 6)%Z
                       [ast.WordNode (1, 6)%Z "false" []]]
                    [ast.CommandNode (10, 14)%Z
                       [ast.WordNode (10, 14)%Z "true" []]]
                    (7, 9)%Z "&&" (initial_state ∅ tt)
                    ltac:(discriminate)))
             ["false"]).
    + reflexivity.
    + vm_compute. reflexivity.
  - apply (proj2 (proj2 (unsupported_operator_rejected
                    {| input := "`false && true`";
                       executor := failing_executor |}
                    [ast.CommandNode (1, 6)%Z
                       [ast.WordNode (1, 6)%Z "false" []]]
                    [ast.CommandNode (10, 14)%Z
                       [ast.WordNode (10, 14)%Z "true" []]]
                    (7, 9)%Z "&&" (initial_state ∅ tt)
                    ltac:(discriminate)))
             [] (1, 6)%Z [ast.WordNode (1, 6)%Z "false" []] []
             [] (initial_state ∅ tt)).
    + reflexivity.
    + reflexivity.
    + reflexivity.
    + vm_compute. reflexivity.
Defined.

(** C4 as stated fails: [false && true] between backquotes is a compound
    command that contains the operator [&&], but with an executor that fails
    on every command (as the default one does on a non-zero exit status) the
    first operand is run before the operator is looked at, and the error that
    comes out is the executor's. *)
Lemma unsupported_operator_counterexample :
  parsesingle_table "`false && true`"
  = Ok (ast.CommandNode (0, 15)%Z
          [ast.WordNode (0, 15)%Z "`false && true`"
             [ast.CommandsubstitutionNode (0, 15)%Z
                (ast.PartsNode ast.k_list (1, 14)%Z
                   [ast.CommandNode (1, 6)%Z
                      [ast.WordNode (1, 6)%Z "false" []];
                    ast.OperatorNode (7, 9)%Z "&&";
                    ast.CommandNode (10, 14)%Z
                      [ast.WordNode (10, 14)%Z "true" []]])]])
  ∧ run "`false && true`" ∅ failing_executor
    = (Raise (OtherException "CalledProcessError" "false"),
       {| st_environment := ∅; st_world := tt;
          st_calls := [("false", ∅)] |})
  ∧ (run "`false && true`" ∅ failing_executor).1
    ≠ Raise (unsupported_operator "&&").
Proof.
  split; [vm_compute; reflexivity|]. split; [vm_compute; reflexivity|].
  vm_compute. discriminate.
Qed.

(** ** Quotes in substituted output *)

(** C10: there is an executor output, the word don't with its unmatched
    single quote, on which evaluation of [$(cmd)] fails although the
    executor was called and returned normally: the error is the tokenizer's
    (no closing quotation), raised by the field-splitting step of the word
    evaluator, and it is none of the errors the evaluator raises itself.
    Matched quotes in an output are consumed: the output 'a' gives a. *)
Theorem unmatched_quote_in_output :
  ∃ output : string,
    output = "don" +:+ char squote +:+ "t"
    ∧ (∀ command env w, constant_executor output command env w
                        = (Ok output, env, w))
    ∧ bash_like_treatment output = Raise (ValueError "No closing quotation")
    ∧ run "$(cmd)" ∅ (constant_executor output)
      = (Raise (ValueError "No closing quotation"),
         {| st_environment := ∅; st_world := tt;
            st_calls := [("cmd", ∅)] |})
    ∧ (∀ value kind op,
          ValueError "No closing quotation" ≠ too_many_parts value
          ∧ ValueError "No closing quotation" ≠ unsupported_construct kind
          ∧ ValueError "No closing quotation" ≠ unsupported_operator op
          ∧ ValueError "No closing quotation"
            ≠ unsupported_compound_node kind)
    ∧ run "$(cmd)" ∅
        (constant_executor (char squote +:+ "a" +:+ char squote))
      = (Ok "a",
         {| st_environment := ∅; st_world := tt;
            st_calls := [("cmd", ∅)] |}).
Proof.
  exists s_dont. repeat split; try (vm_compute; reflexivity).
  all: cbv [too_many_parts unsupported_construct unsupported_operator
            unsupported_compound_node in_dquotes char String.append];
    discriminate.
Qed.

(** ** The environment dictionary is only read *)
Section frame.
Context {X : Type}.
Implicit Types (context : @NodeExecutionContext X) (σ : @state X).

Lemma frames_ret {A} (a : A) : frames_environment (X:=X) (ret a).
Proof. by intros σ. Qed.

Lemma frames_raise {A} e : frames_environment (X:=X) (A:=A) (raise e).
Proof. by intros σ. Qed.

Lemma frames_lift {A} (r : result A) : frames_environment (X:=X) (lift r).
Proof. by intros σ. Qed.

Lemma frames_bind {A B} (m : M A) (k : A → M B) :
  frames_environment (X:=X) m →
  (∀ a, frames_environment (k a)) →
  frames_environment (bind m k).
Proof.
  intros Hm Hk σ. unfold bind. specialize (Hm σ).
  destruct (m σ) as [[a|e] σ1]; simpl in *; [|done].
  by rewrite Hk.
Qed.

Lemma frames_call (executor : EnvironmentExecutor) command :
  preserves_environment (X:=X) executor →
  frames_environment (call executor command).
Proof.
  intros Hex σ. unfold call.
  specialize (Hex command (st_environment σ) (st_world σ)).
  by destruct (executor _ _ _) as [[r env'] w'].
Qed.

Lemma frames_parameter node context :
  frames_environment (evaluate_parameter_node node context).
Proof.
  unfold evaluate_parameter_node.
  destruct (ast.value node); [by intros σ | apply frames_raise].
Qed.

Lemma frames_splice_parts (ev : ast.node → @M X string) word_start parts :
  Forall (λ part, frames_environment (ev part)) parts →
  ∀ letters, frames_environment (splice_parts ev word_start parts letters).
Proof.
  induction 1 as [|part parts Hpart _ IH]; intros letters; simpl.
  - apply frames_ret.
  - apply frames_bind; [apply frames_lift|]. intros letters1.
    apply frames_bind; [done|]. intros v.
    apply frames_bind; [apply frames_lift|]. intros letters2. apply IH.
Qed.

Lemma frames_evaluate_each (ev : ast.node → @M X string) nodes :
  Forall (λ part, frames_environment (ev part)) nodes →
  frames_environment (evaluate_each ev nodes).
Proof.
  induction 1 as [|part parts Hpart _ IH]; simpl.
  - apply frames_ret.
  - apply frames_bind; [done|]. intros w.
    apply frames_bind; [done|]. intros ws. apply frames_ret.
Qed.

Lemma frames_compound_loop (ev : ast.node → @M X string) nodes :
  Forall (λ node, frames_environment (ev node)) nodes →
  ∀ acc, frames_environment (compound_loop ev nodes acc).
Proof.
  induction 1 as [|node nodes Hnode _ IH]; intros acc; simpl.
  - apply frames_ret.
  - destruct node; try apply frames_raise.
    + apply frames_bind; [done|]. intros r. apply IH.
    + case_bool_decide; [apply IH | apply frames_raise].
Qed.

Lemma frames_evaluate_node context :
  preserves_environment (executor context) →
  ∀ node,
    frames_environment (evaluate_node node context)
    ∧ frames_environment (evaluate_command_node node context).
Proof.
  intros Hex.
  assert (Hcommand : ∀ parts,
    Forall (λ n, frames_environment (evaluate_node n context)
                 ∧ frames_environment (evaluate_command_node n context))
      parts →
    frames_environment
      (command_with (λ part, evaluate_node part context)
         (λ part, evaluate_command_node part context) parts context)).
  { intros parts Hparts. unfold command_with.
    destruct (existsb ast.is_operator parts).
    - apply frames_compound_loop.
      eapply Forall_impl; [exact Hparts|]. by intros n [_ ?].
    - unfold simple_command_with.
      apply frames_bind; [|intros words; by apply frames_call].
      apply frames_evaluate_each.
      eapply Forall_impl; [exact Hparts|]. by intros n [? _]. }
  induction node as [pos w parts IH|pos v|pos c [_ IH]|pos parts IH|pos op
                    |k pos parts IH|k pos] using node_nested_ind;
    (split; [|try apply frames_raise; try by apply Hcommand]).
  - cbn [evaluate_node]. unfold evaluate_word_node_with.
    apply frames_bind; [|intros letters; apply frames_lift].
    apply frames_splice_parts.
    eapply Forall_impl; [exact IH|]. by intros n [? _].
  - cbn [evaluate_node]. apply frames_parameter.
  - exact IH.
  - apply frames_raise.
  - apply frames_raise.
  - apply frames_raise.
  - apply frames_raise.
Qed.

Lemma local_environment_executor_preserves
  (check_output : list string → gmap string string → X → result string * X) :
  preserves_environment (local_environment_executor check_output).
Proof.
  intros command env w. unfold local_environment_executor.
  destruct (shlex.split command); [|done].
  by destruct (check_output _ _ _).
Qed.

End frame.

(** C9: when the supplied executor hands back the dictionary as it received
    it (the default executor does), the environment after [evaluate] is the
    environment before it, whether the call returned a value or raised. *)
Theorem environment_not_mutated {X : Type}
  (check_output : list string → gmap string string → X → result string * X)
  (parsesingle : string → result ast.node)
  (value : string) (environment : gmap string string)
  (executor : option EnvironmentExecutor) (world : X) :
  (∀ supplied, executor = Some supplied → preserves_environment supplied) →
  st_environment
    (evaluate check_output parsesingle value environment executor world).2
  = environment.
Proof.
  intros Hex. unfold evaluate.
  case_bool_decide; [done|].
  destruct (parsesingle value) as [command_node|e]; [|done].
  destruct (ast.parts command_node) as [[|word [|other parts]]|]; try done.
  assert (Hdefault : preserves_environment
                       (default (local_environment_executor check_output)
                          executor)).
  { destruct executor as [supplied|]; simpl.
    - by apply Hex.
    - apply local_environment_executor_preserves. }
  match goal with
  | |- context [evaluate_node word ?c ?s] =>
      apply (proj1 (frames_evaluate_node c Hdefault word) s)
  end.
Qed.

Lemma environment_not_mutated_witness :
  st_environment
    (evaluate no_process parsesingle_table "$(echo a; echo b)"
       {[ "FOO" := "bar" ]} (Some echo_executor) tt).2
  = {[ "FOO" := "bar" ]}.
Proof.
  apply (environment_not_mutated no_process parsesingle_table
           "$(echo a; echo b)" {[ "FOO" := "bar" ]} (Some echo_executor) tt).
  intros supplied [= <-] command env w. reflexivity.
Defined.

(** ** Field splitting of unquoted text *)
Section field_splitting.
Import shlex.

Lemma whitespace_isspace c : whitespace c = true → py_isspace c = true.
Proof.
  unfold whitespace. intros Hc. apply bool_decide_eq_true_1 in Hc.
  repeat (apply elem_of_cons in Hc as [->|Hc]; [reflexivity|]).
  by apply elem_of_nil in Hc.
Qed.

Lemma plain_inv c :
  plain c = true →
  py_isspace c = false ∧ whitespace c = false
  ∧ quotes c = false ∧ escape c = false.
Proof.
  unfold plain. intros Hc.
  apply andb_prop in Hc as [Hc Hesc]. apply andb_prop in Hc as [Hsp Hq].
  apply negb_true_iff in Hesc, Hsp, Hq. repeat split; try done.
  destruct (whitespace c) eqn:Hw; [|done].
  apply whitespace_isspace in Hw. congruence.
Qed.

(** Blanks before a token are skipped. *)
Lemma read_tokens_skip_blanks blank rest :
  blanks blank = true →
  read_tokens (blank +:+ rest) in_blank false EmptyString
  = read_tokens rest in_blank false EmptyString.
Proof.
  induction blank as [|c blank IH]; [done|].
  unfold blanks. cbn [all_chars]. intros Hb.
  apply andb_prop in Hb as [Hc Hb].
  rewrite string_app_cons. cbn [read_tokens]. rewrite Hc. simpl.
  by apply IH.
Qed.

(** Plain characters are appended to the token being read. *)
Lemma read_tokens_plain word rest quoted token :
  all_chars plain word = true →
  read_tokens (word +:+ rest) in_word quoted token
  = read_tokens rest in_word quoted (token +:+ word).
Proof.
  revert token. induction word as [|c word IH]; intros token.
  - intros _. by rewrite string_app_nil_l, string_app_nil_r.
  - cbn [all_chars]. intros Hw. apply andb_prop in Hw as [Hc Hw].
    apply plain_inv in Hc as (_ & Hws & Hq & Hesc).
    rewrite string_app_cons. cbn [read_tokens]. rewrite Hws, Hq, Hesc.
    rewrite IH by done. by rewrite string_app_assoc.
Qed.

(** From the blank state, a plain word is read whole. *)
Lemma read_tokens_start_word word rest :
  plain_word word = true →
  read_tokens (word +:+ rest) in_blank false EmptyString
  = read_tokens rest in_word false word.
Proof.
  unfold plain_word. destruct word as [|c word]; [done|].
  cbn [nonempty all_chars andb]. intros Hw.
  apply andb_prop in Hw as [Hc Hw].
  apply plain_inv in Hc as (_ & Hws & Hq & Hesc).
  rewrite string_app_cons. cbn [read_tokens]. rewrite Hws, Hq, Hesc.
  by rewrite read_tokens_plain.
Qed.

Lemma read_tokens_blanks_eof blank :
  blanks blank = true →
  read_tokens blank in_blank false EmptyString = Ok [].
Proof.
  intros Hb. rewrite <- (string_app_nil_r blank).
  by rewrite read_tokens_skip_blanks.
Qed.

(** After a token, separated fields yield one token each. *)
Lemma read_tokens_fields fields trailing :
  separated fields = true →
  blanks trailing = true →
  ∀ token,
    nonempty token = true →
    read_tokens (spaced fields trailing) in_word false token
    = Ok (token :: fields.*2).
Proof.
  intros Hsep Htrail.
  induction fields as [|[blank word] fields IH]; intros token Htoken.
  - cbn [spaced fmap list_fmap]. destruct trailing as [|c trailing].
    + cbn [read_tokens]. destruct token; [done|]. reflexivity.
    + unfold blanks in Htrail. cbn [all_chars] in Htrail.
      apply andb_prop in Htrail as [Hc Htrail].
      cbn [read_tokens]. rewrite Hc.
      destruct token; [done|]. cbn [bool_decide decide_rel orb].
      rewrite bool_decide_eq_true_2 by done. cbn [orb].
      by rewrite read_tokens_blanks_eof.
  - unfold separated in Hsep. cbn [forallb fst snd] in Hsep.
    apply andb_prop in Hsep as [Hfield Hsep].
    apply andb_prop in Hfield as [Hblank Hword].
    apply andb_prop in Hblank as [Hne Hblank].
    destruct blank as [|c blank]; [done|].
    unfold blanks in Hblank. cbn [all_chars] in Hblank.
    apply andb_prop in Hblank as [Hc Hblank].
    cbn [spaced]. rewrite string_app_cons. cbn [read_tokens]. rewrite Hc.
    destruct token as [|t token]; [done|].
    rewrite bool_decide_eq_true_2 by done. cbn [orb].
    rewrite read_tokens_skip_blanks by done.
    rewrite read_tokens_start_word by done.
    rewrite IH; [reflexivity|done|].
    unfold plain_word in Hword. by apply andb_prop in Hword as [? _].
Qed.

Lemma split_spaced fields trailing :
  well_spaced fields trailing = true →
  split (spaced fields trailing) = Ok fields.*2.
Proof.
  unfold split. destruct fields as [|[blank word] fields]; cbn [well_spaced].
  - apply read_tokens_blanks_eof.
  - intros H. apply andb_prop in H as [H Htrail].
    apply andb_prop in H as [H Hsep]. apply andb_prop in H as [Hblank Hword].
    cbn [spaced]. rewrite read_tokens_skip_blanks by done.
    rewrite read_tokens_start_word by done.
    rewrite read_tokens_fields; [reflexivity|done..|].
    unfold plain_word in Hword. by apply andb_prop in Hword as [? _].
Qed.

Lemma rstrip_plain word : all_chars plain word = true → rstrip word = word.
Proof.
  induction word as [|c word IH]; [done|].
  cbn [all_chars]. intros Hw. apply andb_prop in Hw as [Hc Hw].
  apply plain_inv in Hc as (Hsp & _). cbn [rstrip].
  rewrite IH by done. rewrite Hsp. by destruct word.
Qed.

Lemma strip_plain_word word : plain_word word = true → strip word = word.
Proof.
  unfold plain_word, strip. intros Hw. apply andb_prop in Hw as [Hne Hw].
  destruct word as [|c word]; [done|].
  assert (Hc : py_isspace c = false).
  { cbn [all_chars] in Hw. apply andb_prop in Hw as [Hc _].
    by apply plain_inv in Hc as (? & _). }
  cbn [lstrip]. rewrite Hc. by apply rstrip_plain.
Qed.

Lemma strip_fields fields :
  forallb (λ field : string * string, plain_word field.2) fields = true →
  strip <$> fields.*2 = fields.*2.
Proof.
  induction fields as [|[blank word] fields IH]; [done|].
  cbn [forallb snd]. intros H. apply andb_prop in H as [Hw H].
  cbn [fmap list_fmap snd]. rewrite strip_plain_word by done.
  f_equal. by apply IH.
Qed.

(** Unquoted text is split at its blanks and joined with single spaces. *)
Lemma bash_like_treatment_spaced fields trailing :
  well_spaced fields trailing = true →
  bash_like_treatment (spaced fields trailing)
  = Ok (join " " fields.*2).
Proof.
  intros Hws. unfold bash_like_treatment.
  rewrite split_spaced by done. cbn [result_bind].
  rewrite strip_fields; [done|].
  destruct fields as [|[blank word] fields]; [done|].
  cbn [well_spaced] in Hws. apply andb_prop in Hws as [H _].
  apply andb_prop in H as [H Hsep]. apply andb_prop in H as [_ Hword].
  cbn [forallb snd]. rewrite Hword. cbn [andb].
  unfold separated in Hsep. clear -Hsep.
  induction fields as [|[b w] fields IH]; [done|].
  cbn [forallb fst snd] in *. apply andb_prop in Hsep as [H Hsep].
  apply andb_prop in H as [_ ->]. by apply IH.
Qed.

End field_splitting.

(** ** Word evaluation *)

Lemma substring_full (s : string) : String.substring 0 (String.length s) s = s.
Proof. induction s as [|c s IH]; [done|]. simpl. by rewrite IH. Qed.

Lemma clamp_index_in_range (len i : Z) :
  (0 ≤ i ≤ len)%Z → clamp_index len i = i.
Proof.
  intros Hi. unfold clamp_index.
  assert (Hneg : (i <? 0)%Z = false) by lia.
  assert (Hlen : (len <? i)%Z = false) by lia.
  rewrite Hneg. cbv zeta iota. by rewrite Hneg, Hlen.
Qed.

Lemma py_slice_full (s : string) :
  py_slice s 0 (Z.of_nat (String.length s)) = s.
Proof.
  unfold py_slice. cbv zeta.
  rewrite !clamp_index_in_range by lia.
  destruct (Z.ltb_spec 0 (Z.of_nat (String.length s))).
  - rewrite Z.sub_0_r, Nat2Z.id. apply substring_full.
  - assert (String.length s = 0) by lia. by destruct s.
Qed.

Lemma join_letters_of (s : string) : join EmptyString (letters_of s) = s.
Proof.
  induction s as [|c s IH]; [done|].
  cbn [letters_of]. rewrite join_empty_cons, IH. reflexivity.
Qed.

(** C1, as the code has it: the word evaluator joins the letters left after
    splicing into the raw value, tokenizes it with [shlex.split], strips each
    token and joins the tokens with single spaces.  When the raw value is
    unquoted text (blanks, plain words, blanks ...), the result is its words
    separated by single spaces: runs of blanks collapse and the edges are
    trimmed.  So [$(cmd)], with an executor that prints a and b with blanks
    around and between them, evaluates to a b. *)
Theorem word_field_splitting :
  (∀ (X : Type) (context : @NodeExecutionContext X) pos word parts
     (σ σ' : state) (letters : list string),
      splice_parts (λ part, evaluate_node part context) pos.1 parts
        (letters_of (py_slice (input context) pos.1 pos.2)) σ
      = (Ok letters, σ') →
      evaluate_word_node (ast.WordNode pos word parts) context σ
      = (match shlex.split (join EmptyString letters) with
         | Ok tokens => Ok (join " " (strip <$> tokens))
         | Raise e => Raise e
         end, σ')
      ∧ (∀ fields trailing,
            join EmptyString letters = spaced fields trailing →
            well_spaced fields trailing = true →
            evaluate_word_node (ast.WordNode pos word parts) context σ
            = (Ok (join " " fields.*2), σ')))
  ∧ run "$(cmd)" ∅ (constant_executor "  a   b  ")
    = (Ok "a b",
       {| st_environment := ∅; st_world := tt; st_calls := [("cmd", ∅)] |}).
Proof.
  split; [|vm_compute; reflexivity].
  intros X context pos word parts σ σ' letters Hsplice.
  assert (Heval : evaluate_word_node (ast.WordNode pos word parts) context σ
                  = (bash_like_treatment (join EmptyString letters), σ')).
  { unfold evaluate_word_node. cbn [ast.parts ast.pos].
    unfold evaluate_word_node_with.
    by rewrite (bind_ok _ _ σ letters σ' Hsplice). }
  split.
  - rewrite Heval. unfold bash_like_treatment.
    by destruct (shlex.split _).
  - intros fields trailing Hraw Hws.
    by rewrite Heval, Hraw, bash_like_treatment_spaced.
Qed.

Lemma word_field_splitting_witness :
  evaluate_word_node
    (ast.WordNode (0, 6)%Z "$(cmd)"
       [ast.CommandsubstitutionNode (0, 6)%Z
          (ast.CommandNode (2, 5)%Z [ast.WordNode (2, 5)%Z "cmd" []])])
    {| input := "$(cmd)"; executor := constant_executor "  a   b  " |}
    (initial_state ∅ tt)
  = (Ok (join " " ["a"; "b"]),
     {| st_environment := ∅; st_world := tt; st_calls := [("cmd", ∅)] |}).
Proof.
  apply (proj2 (proj1 word_field_splitting unit
                  {| input := "$(cmd)";
                     executor := constant_executor "  a   b  " |}
                  (0, 6)%Z "$(cmd)"
                  [ast.CommandsubstitutionNode (0, 6)%Z
                     (ast.CommandNode (2, 5)%Z [ast.WordNode (2, 5)%Z "cmd" []])]
                  (initial_state ∅ tt)
                  {| st_environment := ∅; st_world := tt;
                     st_calls := [("cmd", ∅)] |}
                  ["  a   b  "; EmptyString; EmptyString; EmptyString;
                   EmptyString; EmptyString]
                  ltac:(vm_compute; reflexivity))
           [("  ", "a"); ("   ", "b")] "  ").
  - vm_compute. reflexivity.
  - vm_compute. reflexivity.
Defined.

(** C1 as stated fails on its example: the bare expression with blanks
    around and between a and b is two top-level words, and [evaluate]
    rejects it before any word is evaluated. *)
Lemma word_field_splitting_counterexample :
  parsesingle_table "  a   b  "
  = Ok (ast.CommandNode (2, 7)%Z
          [ast.WordNode (2, 3)%Z "a" []; ast.WordNode (6, 7)%Z "b" []])
  ∧ run "  a   b  " ∅ echo_executor
    = (Raise (too_many_parts "  a   b  "), initial_state ∅ tt)
  ∧ (run "  a   b  " ∅ echo_executor).1 ≠ Ok "a b".
Proof.
  split; [vm_compute; reflexivity|]. split; [vm_compute; reflexivity|].
  vm_compute. discriminate.
Qed.

(** ** Literals *)




(** * Further properties of the evaluator *)

(** ** Unsupported constructs *)

(** A node whose kind is not word, commandsubstitution or parameter is
    rejected by the node evaluator with the error that names its kind; the
    state is untouched. *)
Lemma evaluate_node_unsupported_kind {X : Type} (node : ast.node)
  (context : @NodeExecutionContext X) (σ : state) :
  supported_kind (ast.kind node) = false →
  evaluate_node node context σ
  = (Raise (ValueError ("Unsupported bash construct: "
                          +:+ in_dquotes (ast.kind node))), σ).
Proof.
  intros Hkind.
  destruct node as [| | | | |k ? ?|k ?]; try reflexivity;
    try (vm_compute in Hkind; discriminate).
Qed.

(** X1: an expression that parses to a single top-level part which is not a
    word (an assignment, say) is rejected by [evaluate] with the error that
    names the part's kind; nothing is executed. *)
Theorem evaluate_single_part_unsupported {X : Type}
  (check_output : list string → gmap string string → X → result string * X)
  (parsesingle : string → result ast.node)
  (value : string) (environment : gmap string string)
  (executor : option EnvironmentExecutor) (world : X)
  (command_node part : ast.node) :
  value ≠ EmptyString →
  parsesingle value = Ok command_node →
  ast.parts command_node = Some [part] →
  supported_kind (ast.kind part) = false →
  evaluate check_output parsesingle value environment executor world
  = (Raise (ValueError ("Unsupported bash construct: "
                          +:+ in_dquotes (ast.kind part))),
     {| st_environment := environment; st_world := world; st_calls := [] |}).
Proof.
  intros Hne Hparse Hparts Hkind. unfold evaluate.
  rewrite bool_decide_eq_false_2 by done.
  rewrite Hparse, Hparts.
  by apply evaluate_node_unsupported_kind.
Qed.

Lemma evaluate_single_part_unsupported_witness :
  evaluate no_process (λ _, Ok tree_assignment) "A=1" ∅
    (Some echo_executor) tt
  = (Raise (ValueError ("Unsupported bash construct: "
                          +:+ in_dquotes "assignment")),
     {| st_environment := ∅; st_world := tt; st_calls := [] |}).
Proof.
  apply (evaluate_single_part_unsupported no_process
           (λ _, Ok tree_assignment) "A=1" ∅ (Some echo_executor) tt
           tree_assignment (ast.PartsNode ast.k_assignment (0, 3)%Z [])).
  - discriminate.
  - reflexivity.
  - reflexivity.
  - vm_compute. reflexivity.
Defined.


(** X2: in a command without operators, a part that is not a word, a
    parameter or a command substitution (a nested command or the pipe of a
    pipeline, say) is rejected when its turn comes: if the parts before it
    evaluate, the command fails with the error that names the part's kind, in
    the state those parts left; the command line is never handed to the
    executor. *)
Theorem simple_command_rejects_part {X : Type}
  (context : @NodeExecutionContext X) (pre post : list ast.node)
  (node : ast.node) (σ σ' : state) (words : list string) :
  evaluate_each (λ part, evaluate_node part context) pre σ = (Ok words, σ') →
  supported_kind (ast.kind node) = false →
  evaluate_nodes_as_simple_command (pre ++ node :: post) context σ
  = (Raise (ValueError ("Unsupported bash construct: "
                          +:+ in_dquotes (ast.kind node))), σ').
Proof.
  intros Hpre Hkind.
  unfold evaluate_nodes_as_simple_command, simple_command_with.
  apply bind_raise. rewrite (evaluate_each_app _ _ _ _ _ _ Hpre).
  cbn [evaluate_each].
  rewrite (bind_raise _ _ σ' _ σ'
             (evaluate_node_unsupported_kind node context σ' Hkind)).
  reflexivity.
Qed.

Lemma simple_command_rejects_part_witness :
  evaluate_nodes_as_simple_command
    ([] ++ ast.CommandNode (2, 3)%Z [ast.WordNode (2, 3)%Z "a" []]
        :: [ast.LeafNode ast.k_pipe (4, 5)%Z;
            ast.CommandNode (6, 7)%Z [ast.WordNode (6, 7)%Z "b" []]])
    {| input := "$(a | b)"; executor := echo_executor |} (initial_state ∅ tt)
  = (Raise (ValueError ("Unsupported bash construct: "
                          +:+ in_dquotes "command")), initial_state ∅ tt).
Proof.
  apply (simple_command_rejects_part
           {| input := "$(a | b)"; executor := echo_executor |} []
           [ast.LeafNode ast.k_pipe (4, 5)%Z;
            ast.CommandNode (6, 7)%Z [ast.WordNode (6, 7)%Z "b" []]]
           (ast.CommandNode (2, 3)%Z [ast.WordNode (2, 3)%Z "a" []])
           (initial_state ∅ tt) (initial_state ∅ tt) []).
  - reflexivity.
  - vm_compute. reflexivity.
Defined.

(** X3: in a compound command, a part that is neither a command nor an
    operator (a pipeline, say) is rejected when its turn comes: if the parts
    before it are [;] operators and commands that evaluate, the compound
    command fails with the error that names the part's kind, in the state
    those commands left. *)
Theorem compound_command_rejects_node {X : Type}
  (context : @NodeExecutionContext X) (pre post : list ast.node)
  (node : ast.node) (σ σ' : state) (outputs : list string) :
  forallb (λ n, ast.is_command n || ast.is_semicolon n) pre = true →
  evaluate_each (λ n, evaluate_command_node n context)
    (List.filter ast.is_command pre) σ = (Ok outputs, σ') →
  ast.is_command node = false →
  ast.is_operator node = false →
  evaluate_nodes_as_compound_command (pre ++ node :: post) context σ
  = (Raise (ValueError ("Unsupported bash node in compound command: "
                          +:+ in_dquotes (ast.kind node))), σ').
Proof.
  intros Hpre Hrun Hcmd Hop. unfold evaluate_nodes_as_compound_command.
  rewrite (compound_loop_prefix _ pre (node :: post) Hpre _ σ outputs σ' Hrun).
  destruct node; try done.
Qed.

Lemma compound_command_rejects_node_witness :
  evaluate_nodes_as_compound_command
    ([] ++ ast.PartsNode ast.k_pipeline (2, 7)%Z parts_pipeline
        :: [ast.OperatorNode (7, 8)%Z ";";
            ast.CommandNode (9, 10)%Z [ast.WordNode (9, 10)%Z "c" []]])
    {| input := "$(a | b; c)"; executor := echo_executor |}
    (initial_state ∅ tt)
  = (Raise (ValueError ("Unsupported bash node in compound command: "
                          +:+ in_dquotes "pipeline")), initial_state ∅ tt).
Proof.
  apply (compound_command_rejects_node
           {| input := "$(a | b; c)"; executor := echo_executor |} []
           [ast.OperatorNode (7, 8)%Z ";";
            ast.CommandNode (9, 10)%Z [ast.WordNode (9, 10)%Z "c" []]]
           (ast.PartsNode ast.k_pipeline (2, 7)%Z parts_pipeline)
           (initial_state ∅ tt) (initial_state ∅ tt) []);
    reflexivity.
Defined.

(** X4: a compound command stops at the first command that fails: if the
    parts before it are [;] operators and commands that evaluate, the error
    of the failing command is the error of the compound command and the
    state is the one the failing command left, whatever comes after it; the
    later commands are not run. *)
Theorem compound_command_stops_at_failure {X : Type}
  (context : @NodeExecutionContext X) (pre post : list ast.node)
  (pos : Z * Z) (parts : list ast.node) (σ σ1 σ2 : state)
  (outputs : list string) (e : exn) :
  forallb (λ n, ast.is_command n || ast.is_semicolon n) pre = true →
  evaluate_each (λ n, evaluate_command_node n context)
    (List.filter ast.is_command pre) σ = (Ok outputs, σ1) →
  evaluate_command_node (ast.CommandNode pos parts) context σ1
  = (Raise e, σ2) →
  evaluate_nodes_as_compound_command
    (pre ++ ast.CommandNode pos parts :: post) context σ
  = (Raise e, σ2).
Proof.
  intros Hpre Hrun Hfail. unfold evaluate_nodes_as_compound_command.
  rewrite (compound_loop_prefix _ pre _ Hpre _ σ outputs σ1 Hrun).
  cbn [compound_loop]. by apply bind_raise.
Qed.

Lemma compound_command_stops_at_failure_witness :
  evaluate_nodes_as_compound_command
    ([] ++ ast.CommandNode (2, 7)%Z [ast.WordNode (2, 7)%Z "false" []]
        :: [ast.OperatorNode (7, 8)%Z ";";
            ast.CommandNode (9, 15)%Z
              [ast.WordNode (9, 13)%Z "echo" [];
               ast.WordNode (14, 15)%Z "b" []]])
    {| input := "$(false; echo b)"; executor := selective_executor "false" |}
    (initial_state ∅ tt)
  = (Raise (OtherException "CalledProcessError" "false"),
     {| st_environment := ∅; st_world := tt; st_calls := [("false", ∅)] |}).
Proof.
  apply (compound_command_stops_at_failure
           {| input := "$(false; echo b)";
              executor := selective_executor "false" |} []
           [ast.OperatorNode (7, 8)%Z ";";
            ast.CommandNode (9, 15)%Z
              [ast.WordNode (9, 13)%Z "echo" [];
               ast.WordNode (14, 15)%Z "b" []]]
           (2, 7)%Z [ast.WordNode (2, 7)%Z "false" []]
           (initial_state ∅ tt) (initial_state ∅ tt)
           {| st_environment := ∅; st_world := tt;
              st_calls := [("false", ∅)] |} []).
  - reflexivity.
  - reflexivity.
  - vm_compute. reflexivity.
Defined.

(** ** Expressions without command substitution *)
Section purity.
Context {X : Type}.
Implicit Types (σ : @state X).

Lemma splice_parts_pure (ev1 ev2 : ast.node → @M X string) word_start parts :
  Forall (λ part, pure_and_equal (ev1 part) (ev2 part)) parts →
  ∀ letters σ,
    (splice_parts ev1 word_start parts letters σ).2 = σ
    ∧ splice_parts ev1 word_start parts letters σ
      = splice_parts ev2 word_start parts letters σ.
Proof.
  induction 1 as [|part parts Hpart _ IH]; intros letters σ; [done|].
  cbn [splice_parts]. unfold bind at 1 4 7. unfold lift at 1 3 5.
  destruct (blank_letters letters _) as [letters1|e]; [|done].
  destruct (Hpart σ) as [Hstate Heq]. unfold bind at 1 3 5.
  rewrite <- Heq. destruct (ev1 part σ) as [[v|e] σ1]; simpl in Hstate;
    subst σ1; [|done].
  unfold bind, lift.
  destruct (list_setitem letters1 _ v) as [letters2|e]; [|done].
  apply IH.
Qed.

Lemma evaluate_node_pure (source : string)
  (executor1 executor2 : @EnvironmentExecutor X) (node : ast.node) :
  no_substitution node = true →
  pure_and_equal
    (evaluate_node node {| input := source; executor := executor1 |})
    (evaluate_node node {| input := source; executor := executor2 |}).
Proof.
  induction node as [pos w parts IH|pos v|pos c _|pos parts _|pos op
                    |k pos parts _|k pos] using node_nested_ind;
    intros Hpure σ; try done.
  cbn [no_substitution] in Hpure. cbn [evaluate_node].
  unfold evaluate_word_node_with. cbn [input].
  assert (Hparts : Forall (λ part,
            pure_and_equal
              (evaluate_node part {| input := source; executor := executor1 |})
              (evaluate_node part {| input := source; executor := executor2 |}))
            parts).
  { rewrite forallb_forall in Hpure. rewrite Forall_forall in IH |- *.
    intros part Hin. apply IH; [done|]. apply Hpure.
    by apply list_elem_of_In. }
  destruct (splice_parts_pure _ _ pos.1 parts Hparts
              (letters_of (py_slice source pos.1 pos.2)) σ) as [Hstate Heq].
  unfold bind. rewrite <- Heq.
  destruct (splice_parts _ _ _ _ σ) as [[letters|e] σ1]; simpl in Hstate;
    by subst σ1.
Qed.

End purity.

(** X5: a word that contains no command substitution (only literal text and
    parameters, at any depth) is evaluated without calling the executor: the
    state after the evaluation, environment, world and call log, is the state
    before it, and the outcome is the same with any other executor. *)
Theorem no_substitution_touches_nothing {X : Type} (input : string)
  (executor1 executor2 : @EnvironmentExecutor X) (node : ast.node)
  (σ : state) :
  no_substitution node = true →
  (evaluate_node node {| input := input; executor := executor1 |} σ).2 = σ
  ∧ evaluate_node node {| input := input; executor := executor1 |} σ
    = evaluate_node node {| input := input; executor := executor2 |} σ.
Proof. intros Hpure. by apply evaluate_node_pure. Qed.

Lemma no_substitution_touches_nothing_witness :
  (evaluate_node
     (ast.WordNode (0, 11)%Z "prefix-$VAR"
        [ast.ParameterNode (7, 11)%Z "VAR"])
     {| input := "prefix-$VAR"; executor := failing_executor |}
     (initial_state {[ "VAR" := "x" ]} tt)).2
  = initial_state {[ "VAR" := "x" ]} tt
  ∧ evaluate_node
      (ast.WordNode (0, 11)%Z "prefix-$VAR"
         [ast.ParameterNode (7, 11)%Z "VAR"])
      {| input := "prefix-$VAR"; executor := failing_executor |}
      (initial_state {[ "VAR" := "x" ]} tt)
    = evaluate_node
        (ast.WordNode (0, 11)%Z "prefix-$VAR"
           [ast.ParameterNode (7, 11)%Z "VAR"])
        {| input := "prefix-$VAR"; executor := echo_executor |}
        (initial_state {[ "VAR" := "x" ]} tt).
Proof.
  apply (no_substitution_touches_nothing "prefix-$VAR" failing_executor
           echo_executor
           (ast.WordNode (0, 11)%Z "prefix-$VAR"
              [ast.ParameterNode (7, 11)%Z "VAR"])
           (initial_state {[ "VAR" := "x" ]} tt)).
  reflexivity.
Defined.

(** ** Text reconstruction *)
Section splicing.

Lemma letters_of_app (a b : string) :
  letters_of (a +:+ b) = letters_of a ++ letters_of b.
Proof.
  induction a as [|c a IH]; [done|].
  rewrite string_app_cons. cbn [letters_of app]. by rewrite IH.
Qed.

Lemma length_letters_of (s : string) :
  length (letters_of s) = String.length s.
Proof. induction s as [|c s IH]; [done|]. cbn. by rewrite IH. Qed.

Lemma join_empty_app (l1 l2 : list string) :
  join EmptyString (l1 ++ l2)
  = join EmptyString l1 +:+ join EmptyString l2.
Proof.
  induction l1 as [|x l1 IH]; [done|].
  cbn [app]. by rewrite !join_empty_cons, IH, string_app_assoc.
Qed.

Lemma join_empty_replicate (k : nat) :
  join EmptyString (replicate k EmptyString) = EmptyString.
Proof.
  induction k as [|k IH]; [done|].
  cbn [replicate]. by rewrite join_empty_cons, IH.
Qed.

Lemma list_setitem_in_range {A} (l : list A) (i : nat) (v : A) :
  i < length l → list_setitem l (Z.of_nat i) v = Ok (<[i := v]> l).
Proof.
  intros Hi. unfold list_setitem.
  assert (H0 : (0 <=? Z.of_nat i)%Z = true) by lia.
  assert (H1 : (Z.of_nat i <? Z.of_nat (length l))%Z = true) by lia.
  rewrite H0, H1. cbn [andb]. by rewrite Nat2Z.id.
Qed.

(** Blanking the positions [a .. a+k-1] of a list of letters. *)
Lemma blank_letters_range (k a : nat) (letters : list string) :
  a + k ≤ length letters →
  blank_letters letters (seqZ (Z.of_nat a) (Z.of_nat k))
  = Ok (take a letters ++ replicate k EmptyString ++ drop (a + k) letters).
Proof.
  revert a letters. induction k as [|k IH]; intros a letters Hlen.
  - cbn [seqZ blank_letters replicate app]. rewrite Nat.add_0_r.
    by rewrite take_drop.
  - rewrite seqZ_cons by lia. cbn [blank_letters].
    rewrite list_setitem_in_range by lia. cbn [result_bind].
    replace (Z.succ (Z.of_nat a)) with (Z.of_nat (S a)) by lia.
    replace (Z.pred (Z.of_nat (S k))) with (Z.of_nat k) by lia.
    rewrite IH by (rewrite length_insert; lia). f_equal.
    rewrite (take_S_r _ a EmptyString)
      by (apply list_lookup_insert_eq; lia).
    rewrite take_insert_ge by lia. rewrite drop_insert_lt by lia.
    rewrite <- app_assoc. cbn [replicate app].
    by replace (S a + k) with (a + S k) by lia.
Qed.

End splicing.

(** The value of a one-part word: prefix, value of the part, suffix. *)
Lemma word_single_part_value {X : Type}
  (context : @NodeExecutionContext X) (pos : Z * Z) (word : string)
  (part : ast.node) (pre mid suf : string) (σ σ' : state) (v : string) :
  py_slice (input context) pos.1 pos.2 = pre +:+ mid +:+ suf →
  nonempty mid = true →
  ((ast.pos part).1 - pos.1)%Z = Z.of_nat (String.length pre) →
  ((ast.pos part).2 - pos.1)%Z
  = Z.of_nat (String.length pre + String.length mid) →
  evaluate_node part context σ = (Ok v, σ') →
  evaluate_node (ast.WordNode pos word [part]) context σ
  = (bash_like_treatment (pre +:+ v +:+ suf), σ').
Proof.
  intros Hslice Hmid Hstart Hend Hpart.
  cbn [evaluate_node]. unfold evaluate_word_node_with.
  cbn [splice_parts]. rewrite Hslice, Hstart, Hend.
  set (a := String.length pre). set (k := String.length mid).
  set (letters := letters_of (pre +:+ mid +:+ suf)).
  assert (Hletters : letters
                     = letters_of pre ++ letters_of mid ++ letters_of suf).
  { subst letters. by rewrite !letters_of_app. }
  assert (Hk : 0 < k) by (subst k; destruct mid; [done | cbn; lia]).
  assert (Hlen : a + k ≤ length letters).
  { rewrite Hletters, !length_app, !length_letters_of. subst a k. lia. }
  unfold range.
  replace (Z.of_nat (a + k) - Z.of_nat a)%Z with (Z.of_nat k) by lia.
  unfold bind at 1 2. unfold lift at 1.
  rewrite blank_letters_range by done.
  unfold bind at 1 2. rewrite Hpart. unfold lift at 1.
  assert (Htake : take a letters = letters_of pre).
  { rewrite Hletters. apply take_app_length'.
    by rewrite length_letters_of. }
  assert (Hdrop : drop (a + k) letters = letters_of suf).
  { rewrite Hletters, app_assoc. apply drop_app_length'.
    by rewrite length_app, !length_letters_of. }
  rewrite Htake, Hdrop.
  rewrite list_setitem_in_range
    by (rewrite !length_app, length_replicate, length_letters_of;
        fold a; lia).
  rewrite insert_app_r_alt by (rewrite length_letters_of; fold a; lia).
  rewrite length_letters_of. fold a. rewrite Nat.sub_diag.
  destruct k as [|k']; [lia|]. cbn [replicate app].
  unfold ret, lift. f_equal. f_equal.
  change (<[0:=v]> (EmptyString :: ?l)) with (v :: l).
  rewrite join_empty_app, join_letters_of, join_empty_cons.
  rewrite join_empty_app, join_empty_replicate, join_letters_of.
  by rewrite string_app_nil_l.
Qed.

(** X6: a word with one part (a parameter or a command substitution) that
    stands between a literal prefix and a literal suffix is reconstructed as
    prefix, value of the part, suffix: the part's own characters disappear,
    the literal text around it is kept, and the result is the bash-like
    treatment of that string.  The part must span at least one character
    and lie inside the word. *)
Theorem word_single_part_splice {X : Type}
  (context : @NodeExecutionContext X) (pos : Z * Z) (word : string)
  (part : ast.node) (pre mid suf : string) (σ σ' : state) (v : string) :
  py_slice (input context) pos.1 pos.2 = pre +:+ mid +:+ suf →
  nonempty mid = true →
  ((ast.pos part).1 - pos.1)%Z = Z.of_nat (String.length pre) →
  ((ast.pos part).2 - pos.1)%Z
  = Z.of_nat (String.length pre + String.length mid) →
  evaluate_node part context σ = (Ok v, σ') →
  evaluate_node (ast.WordNode pos word [part]) context σ
  = (bash_like_treatment (pre +:+ v +:+ suf), σ').
Proof. apply word_single_part_value. Qed.

Lemma word_single_part_splice_witness :
  evaluate_node
    (ast.WordNode (0, 11)%Z "prefix-$VAR" [ast.ParameterNode (7, 11)%Z "VAR"])
    {| input := "prefix-$VAR"; executor := failing_executor |}
    (initial_state {[ "VAR" := "x" ]} tt)
  = (bash_like_treatment ("prefix-" +:+ "x" +:+ EmptyString),
     initial_state {[ "VAR" := "x" ]} tt).
Proof.
  apply (word_single_part_splice
           {| input := "prefix-$VAR"; executor := failing_executor |}
           (0, 11)%Z "prefix-$VAR" (ast.ParameterNode (7, 11)%Z "VAR")
           "prefix-" "$VAR" EmptyString
           (initial_state {[ "VAR" := "x" ]} tt)
           (initial_state {[ "VAR" := "x" ]} tt) "x").
  - vm_compute. reflexivity.
  - reflexivity.
  - reflexivity.
  - reflexivity.
  - vm_compute. reflexivity.
Defined.

(** ** The bash-like treatment of quotes, escapes and whitespace *)
Section treatment.
Import shlex.

Lemma all_chars_app (P : ascii → bool) (a b : string) :
  all_chars P (a +:+ b) = all_chars P a && all_chars P b.
Proof.
  induction a as [|c a IH]; [done|].
  rewrite string_app_cons. cbn [all_chars]. by rewrite IH, andb_assoc.
Qed.

Lemma nonempty_app_l (a b : string) :
  nonempty a = true → nonempty (a +:+ b) = true.
Proof. by destruct a. Qed.

Lemma nonempty_app_r (a b : string) :
  nonempty b = true → nonempty (a +:+ b) = true.
Proof. destruct a; [done|]. by rewrite string_app_cons. Qed.

Lemma bash_like_treatment_plain_word (word : string) :
  plain_word word = true → bash_like_treatment word = Ok word.
Proof.
  intros Hplain.
  assert (Hfield : bash_like_treatment
                     (spaced [(EmptyString, word)] EmptyString)
                   = Ok (join " " [word])).
  { apply bash_like_treatment_spaced.
    cbn [well_spaced blanks all_chars separated forallb].
    by rewrite Hplain. }
  cbn [spaced] in Hfield.
  by rewrite string_app_nil_l, string_app_nil_r in Hfield.
Qed.

Lemma join_spaces_spaced (word : string) (words : list string) :
  join " " (word :: words)
  = spaced ((EmptyString, word) :: ((λ w, (" ", w)) <$> words)) EmptyString.
Proof.
  cbn [spaced]. rewrite string_app_nil_l.
  revert word. induction words as [|w words IH]; intros word.
  - cbn [fmap list_fmap spaced]. by rewrite string_app_nil_r.
  - change (join " " (word :: w :: words))
      with (word +:+ " " +:+ join " " (w :: words)).
    rewrite IH. reflexivity.
Qed.

Lemma plain_words_well_spaced (word : string) (words : list string) :
  forallb plain_word (word :: words) = true →
  well_spaced ((EmptyString, word) :: ((λ w, (" ", w)) <$> words))
    EmptyString = true.
Proof.
  cbn [forallb well_spaced blanks all_chars andb]. intros H.
  apply andb_prop in H as [-> H]. cbn [andb]. rewrite andb_true_r.
  induction words as [|w words IH]; [done|].
  cbn [forallb] in H. apply andb_prop in H as [Hw H].
  cbn [fmap list_fmap separated forallb fst snd]. rewrite Hw.
  by apply IH.
Qed.

Lemma fmap_snd_spaces (words : list string) :
  ((λ w : string, (" ", w)) <$> words).*2 = words.
Proof. induction words as [|w words IH]; [done|]. cbn. by rewrite IH. Qed.

(** Plain words joined by single spaces are split back into the words. *)
Lemma split_join_plain (words : list string) :
  forallb plain_word words = true →
  split (join " " words) = Ok words.
Proof.
  destruct words as [|word words]; [done|]. intros Hplain.
  rewrite join_spaces_spaced.
  rewrite split_spaced by by apply plain_words_well_spaced.
  cbn [fmap list_fmap snd]. f_equal. f_equal. apply fmap_snd_spaces.
Qed.

Lemma bash_like_treatment_join_plain (words : list string) :
  forallb plain_word words = true →
  bash_like_treatment (join " " words) = Ok (join " " words).
Proof.
  destruct words as [|word words]; [done|]. intros Hplain.
  rewrite join_spaces_spaced at 1.
  rewrite bash_like_treatment_spaced by by apply plain_words_well_spaced.
  cbn [fmap list_fmap snd]. by rewrite fmap_snd_spaces.
Qed.

Lemma well_spaced_plain_words fields trailing :
  well_spaced fields trailing = true →
  forallb plain_word fields.*2 = true.
Proof.
  destruct fields as [|[blank word] fields]; [done|].
  cbn [well_spaced]. intros H. apply andb_prop in H as [H _].
  apply andb_prop in H as [H Hsep]. apply andb_prop in H as [_ Hword].
  cbn [fmap list_fmap snd forallb]. rewrite Hword. cbn [andb].
  unfold separated in Hsep.
  induction fields as [|[b w] fields IH]; [done|].
  cbn [forallb fst snd] in Hsep. apply andb_prop in Hsep as [H Hsep].
  apply andb_prop in H as [_ Hw].
  cbn [fmap list_fmap snd forallb]. rewrite Hw. by apply IH.
Qed.

(** Escaped plain segments are appended to the token, backslashes dropped. *)
Lemma read_tokens_escaped segments rest :
  forallb plain_word segments = true →
  ∀ token,
    read_tokens (escaped segments +:+ rest) in_word false token
    = read_tokens rest in_word false (token +:+ unescaped segments).
Proof.
  unfold escaped, unescaped.
  induction segments as [|segment segments IH]; intros Hplain token.
  - cbn. by rewrite string_app_nil_r.
  - cbn [forallb] in Hplain. apply andb_prop in Hplain as [Hseg Hplain].
    cbn [fmap list_fmap]. rewrite !join_empty_cons.
    destruct segment as [|c segment]; [done|].
    unfold plain_word in Hseg. cbn [nonempty all_chars andb] in Hseg.
    apply andb_prop in Hseg as [Hc Hseg].
    rewrite !string_app_assoc. unfold char at 1.
    rewrite !string_app_cons, string_app_nil_l.
    cbn [read_tokens in_quotes].
    change (whitespace backslash) with false.
    change (quotes backslash) with false.
    change (escape backslash) with true. cbv iota.
    rewrite read_tokens_plain by done.
    rewrite IH by done. f_equal.
    rewrite !string_app_assoc. f_equal.
Qed.

(** Text between single quotes is taken as it is, up to the closing quote. *)
Lemma read_tokens_single_quoted text rest :
  all_chars (λ c, bool_decide (c ≠ squote)) text = true →
  ∀ quoted token,
    read_tokens (text +:+ String squote rest) (in_quote squote) quoted token
    = read_tokens rest in_word true (token +:+ text).
Proof.
  induction text as [|c text IH]; intros Htext quoted token.
  - rewrite string_app_nil_l, string_app_nil_r. cbn [read_tokens].
    by rewrite bool_decide_eq_true_2.
  - cbn [all_chars] in Htext. apply andb_prop in Htext as [Hc Htext].
    apply bool_decide_eq_true_1 in Hc.
    rewrite string_app_cons. cbn [read_tokens].
    rewrite bool_decide_eq_false_2 by done.
    change (escapedquotes squote) with false. rewrite andb_false_r.
    rewrite IH by done. by rewrite string_app_assoc.
Qed.

End treatment.

(** X7: on unquoted text the bash-like treatment is idempotent: applying it
    to its own result gives that result again. *)
Theorem treatment_idempotent_on_unquoted_text
  (fields : list (string * string)) (trailing : string) :
  well_spaced fields trailing = true →
  result_bind (bash_like_treatment (spaced fields trailing))
    bash_like_treatment
  = bash_like_treatment (spaced fields trailing).
Proof.
  intros Hws. rewrite bash_like_treatment_spaced by done.
  cbn [result_bind]. apply bash_like_treatment_join_plain.
  by eapply well_spaced_plain_words.
Qed.

Lemma treatment_idempotent_on_unquoted_text_witness :
  result_bind
    (bash_like_treatment (spaced [("  ", "a"); ("   ", "b")] "  "))
    bash_like_treatment
  = bash_like_treatment (spaced [("  ", "a"); ("   ", "b")] "  ").
Proof.
  apply (treatment_idempotent_on_unquoted_text
           [("  ", "a"); ("   ", "b")] "  ").
  vm_compute. reflexivity.
Defined.

(** X8: a backslash in front of a plain character is consumed by the
    treatment: plain text followed by segments of plain text, each preceded
    by a backslash, comes out as the text and the segments glued, without
    the backslashes (so a Windows path loses its separators). *)
Theorem backslashes_are_consumed (text : string) (segments : list string) :
  all_chars plain text = true →
  forallb plain_word segments = true →
  bash_like_treatment (text +:+ escaped segments)
  = Ok (text +:+ unescaped segments).
Proof.
  intros Htext Hsegs.
  assert (Hall : all_chars plain (text +:+ unescaped segments) = true).
  { rewrite all_chars_app, Htext. cbn [andb]. unfold unescaped.
    clear Htext. induction segments as [|s segments IH]; [done|].
    cbn [forallb] in Hsegs. apply andb_prop in Hsegs as [Hs Hsegs].
    rewrite join_empty_cons, all_chars_app, IH by done.
    unfold plain_word in Hs. apply andb_prop in Hs as [_ ->]. done. }
  destruct (nonempty (text +:+ unescaped segments)) eqn:Hne.
  - assert (Hsplit : shlex.split (text +:+ escaped segments)
                     = Ok [text +:+ unescaped segments]).
    { unfold shlex.split. destruct text as [|c text].
      - rewrite !string_app_nil_l in *.
        destruct segments as [|s segments]; [done|].
        transitivity (shlex.read_tokens (escaped (s :: segments))
                        shlex.in_word false EmptyString).
        { unfold escaped. cbn [fmap list_fmap]. rewrite join_empty_cons.
          unfold char at 1 3. rewrite !string_app_cons. reflexivity. }
        rewrite <- (string_app_nil_r (escaped (s :: segments))).
        rewrite read_tokens_escaped by done.
        rewrite string_app_nil_l. cbn [shlex.read_tokens].
        by destruct (unescaped (s :: segments)).
      - rewrite read_tokens_start_word by done.
        rewrite <- (string_app_nil_r (escaped segments)).
        rewrite read_tokens_escaped by done. cbn [shlex.read_tokens].
        by destruct (String c text +:+ unescaped segments). }
    unfold bash_like_treatment. rewrite Hsplit. cbn [result_bind].
    cbn [fmap list_fmap]. rewrite strip_plain_word; [done|].
    unfold plain_word. by rewrite Hne, Hall.
  - destruct text as [|c text]; [|done].
    destruct segments as [|s segments]; [done|].
    cbn [forallb] in Hsegs. apply andb_prop in Hsegs as [Hs _].
    unfold plain_word in Hs. apply andb_prop in Hs as [Hs _].
    rewrite string_app_nil_l in Hne. unfold unescaped in Hne.
    rewrite join_empty_cons in Hne. by rewrite nonempty_app_l in Hne.
Qed.

Lemma backslashes_are_consumed_witness :
  bash_like_treatment ("C:" +:+ escaped ["Users"; "me"])
  = Ok ("C:" +:+ unescaped ["Users"; "me"]).
Proof.
  apply (backslashes_are_consumed "C:" ["Users"; "me"]);
    vm_compute; reflexivity.
Defined.

(** X9: a value that ends in a backslash, after plain text and escaped plain
    segments, makes the treatment (and so the word evaluation) fail with the
    tokenizer's error for a missing escaped character. *)
Theorem trailing_backslash_fails (text : string) (segments : list string) :
  all_chars plain text = true →
  forallb plain_word segments = true →
  bash_like_treatment (text +:+ escaped segments +:+ char backslash)
  = Raise (ValueError "No escaped character").
Proof.
  intros Htext Hsegs. unfold bash_like_treatment.
  assert (Hword : ∀ token,
            shlex.read_tokens (escaped segments +:+ char backslash)
              shlex.in_word false token
            = Raise (ValueError "No escaped character")).
  { intros token. by rewrite read_tokens_escaped. }
  assert (Hsplit : shlex.split (text +:+ escaped segments +:+ char backslash)
                   = Raise (ValueError "No escaped character")).
  { unfold shlex.split. destruct text as [|c text].
    - rewrite string_app_nil_l.
      destruct segments as [|s segments]; [done|].
      rewrite <- (Hword EmptyString).
      unfold escaped. cbn [fmap list_fmap]. rewrite join_empty_cons.
      unfold char at 1 4. rewrite !string_app_assoc, !string_app_cons.
      reflexivity.
    - rewrite read_tokens_start_word by done. apply Hword. }
  by rewrite Hsplit.
Qed.

Lemma trailing_backslash_fails_witness :
  bash_like_treatment ("C:" +:+ escaped ["Users"] +:+ char backslash)
  = Raise (ValueError "No escaped character").
Proof.
  apply (trailing_backslash_fails "C:" ["Users"]); vm_compute; reflexivity.
Defined.

(** X10: text between single quotes that contains no single quote is one
    token whatever it contains (blanks, dollars, backslashes, double
    quotes): its inner whitespace is kept as it is, and only the whitespace at
    its two ends is stripped. *)
Theorem single_quoted_text_kept (text : string) :
  all_chars (λ c, bool_decide (c ≠ squote)) text = true →
  bash_like_treatment (char squote +:+ text +:+ char squote)
  = Ok (strip text).
Proof.
  intros Htext. unfold bash_like_treatment, shlex.split, char.
  rewrite string_app_cons, string_app_nil_l.
  cbn [shlex.read_tokens].
  change (shlex.whitespace squote) with false.
  change (shlex.escape squote) with false.
  change (shlex.quotes squote) with true. cbv iota.
  rewrite read_tokens_single_quoted by done.
  cbn [shlex.read_tokens]. rewrite orb_true_r, string_app_nil_l.
  reflexivity.
Qed.

Lemma single_quoted_text_kept_witness :
  bash_like_treatment (char squote +:+ " a  $b " +:+ char squote)
  = Ok (strip " a  $b ").
Proof.
  apply (single_quoted_text_kept " a  $b "). vm_compute. reflexivity.
Defined.

(** ** The default executor *)
Section default_executor.
Context {X : Type}.

Lemma evaluate_plain_word_node (context : @NodeExecutionContext X)
  (node : ast.node) (text : string) (σ : state) :
  plain_word_at (input context) node text →
  evaluate_node node context σ = (Ok text, σ).
Proof.
  intros (pos & word & -> & Hslice & Hplain).
  cbn [evaluate_node]. unfold evaluate_word_node_with.
  cbn [splice_parts]. unfold bind, ret, lift.
  by rewrite Hslice, join_letters_of, bash_like_treatment_plain_word.
Qed.

Lemma evaluate_each_plain_words (context : @NodeExecutionContext X)
  (nodes : list ast.node) (texts : list string) (σ : state) :
  Forall2 (plain_word_at (input context)) nodes texts →
  evaluate_each (λ part, evaluate_node part context) nodes σ = (Ok texts, σ).
Proof.
  induction 1 as [|node text nodes texts Hnode _ IH]; [done|].
  cbn [evaluate_each].
  rewrite (bind_ok _ _ σ text σ (evaluate_plain_word_node _ _ _ σ Hnode)).
  by rewrite (bind_ok _ _ σ texts σ IH).
Qed.

Lemma Forall2_plain_words (input : string) (nodes : list ast.node)
  (texts : list string) :
  Forall2 (plain_word_at input) nodes texts →
  forallb plain_word texts = true.
Proof.
  induction 1 as [|node text nodes texts (pos & word & _ & _ & Hp) _ IH];
    [done|].
  cbn [forallb]. by rewrite Hp, IH.
Qed.

End default_executor.

(** X11: with the default executor, a command made of plain literal words is
    run with exactly those words as its argument vector: joining them with
    spaces and splitting the command line again loses nothing.  The process
    runner is called once, with the environment dictionary, and its outcome
    is the outcome of the command; the dictionary is left as it was. *)
Theorem default_executor_runs_the_words {X : Type}
  (check_output : list string → gmap string string → X → result string * X)
  (input : string) (nodes : list ast.node) (texts : list string)
  (σ : state) :
  Forall2 (plain_word_at input) nodes texts →
  evaluate_nodes_as_simple_command nodes
    {| input := input;
       executor := local_environment_executor check_output |} σ
  = ((check_output texts (st_environment σ) (st_world σ)).1,
     {| st_environment := st_environment σ;
        st_world := (check_output texts (st_environment σ) (st_world σ)).2;
        st_calls := st_calls σ ++ [(join " " texts, st_environment σ)] |}).
Proof.
  intros Hwords.
  unfold evaluate_nodes_as_simple_command, simple_command_with.
  rewrite (bind_ok _ _ σ texts σ
             (evaluate_each_plain_words
                {| input := input;
                   executor := local_environment_executor check_output |}
                nodes texts σ Hwords)).
  unfold call, local_environment_executor. cbn [executor].
  rewrite split_join_plain by by eapply Forall2_plain_words.
  by destruct (check_output texts _ _) as [r w'].
Qed.

Lemma default_executor_runs_the_words_witness :
  evaluate_nodes_as_simple_command
    [ast.WordNode (2, 7)%Z "uname" []; ast.WordNode (8, 10)%Z "-m" []]
    {| input := "$(uname -m)";
       executor := local_environment_executor argv_lines |}
    (initial_state ∅ tt)
  = ((argv_lines ["uname"; "-m"] ∅ tt).1,
     {| st_environment := ∅;
        st_world := (argv_lines ["uname"; "-m"] ∅ tt).2;
        st_calls := [("uname -m", ∅)] |}).
Proof.
  apply (default_executor_runs_the_words argv_lines "$(uname -m)"
           [ast.WordNode (2, 7)%Z "uname" []; ast.WordNode (8, 10)%Z "-m" []]
           ["uname"; "-m"] (initial_state ∅ tt)).
  repeat constructor.
  - exists (2, 7)%Z, "uname". repeat split; vm_compute; reflexivity.
  - exists (8, 10)%Z, "-m". repeat split; vm_compute; reflexivity.
Defined.

(** ** Expressions that are one expansion *)

(** In a one-part word, an error of the part is the error of the word. *)
Lemma word_single_part_raises {X : Type}
  (context : @NodeExecutionContext X) (pos : Z * Z) (word : string)
  (part : ast.node) (pre mid suf : string) (σ σ' : state) (e : exn) :
  py_slice (input context) pos.1 pos.2 = pre +:+ mid +:+ suf →
  ((ast.pos part).1 - pos.1)%Z = Z.of_nat (String.length pre) →
  ((ast.pos part).2 - pos.1)%Z
  = Z.of_nat (String.length pre + String.length mid) →
  evaluate_node part context σ = (Raise e, σ') →
  evaluate_node (ast.WordNode pos word [part]) context σ = (Raise e, σ').
Proof.
  intros Hslice Hstart Hend Hpart.
  cbn [evaluate_node]. unfold evaluate_word_node_with.
  cbn [splice_parts]. rewrite Hslice, Hstart, Hend.
  assert (Hlen : String.length pre + String.length mid
                 ≤ length (letters_of (pre +:+ mid +:+ suf))).
  { rewrite !letters_of_app, !length_app, !length_letters_of. lia. }
  unfold range.
  replace (Z.of_nat (String.length pre + String.length mid)
           - Z.of_nat (String.length pre))%Z
    with (Z.of_nat (String.length mid)) by lia.
  unfold bind at 1 2. unfold lift at 1.
  rewrite blank_letters_range by done.
  unfold bind at 1 2. by rewrite Hpart.
Qed.

(** X12: when the expression is one word that consists of a single
    expansion (a parameter or a command substitution spanning the whole
    input), [evaluate] returns the bash-like treatment of the expansion's
    value, so the value of a variable or the output of a command is itself
    split, stripped of quotes and rejoined; an error of the expansion is the
    error of [evaluate]. *)
Theorem evaluate_whole_expansion {X : Type}
  (check_output : list string → gmap string string → X → result string * X)
  (parsesingle : string → result ast.node)
  (value : string) (environment : gmap string string)
  (executor : option EnvironmentExecutor) (world : X)
  (command_node part : ast.node) (word : string) :
  value ≠ EmptyString →
  parsesingle value = Ok command_node →
  ast.parts command_node
  = Some [ast.WordNode (0%Z, Z.of_nat (String.length value)) word [part]] →
  ast.pos part = (0%Z, Z.of_nat (String.length value)) →
  evaluate check_output parsesingle value environment executor world
  = match evaluate_node part
            {| input := value;
               executor := default (local_environment_executor check_output)
                             executor |}
            (initial_state environment world) with
    | (Ok v, σ') => (bash_like_treatment v, σ')
    | (Raise e, σ') => (Raise e, σ')
    end.
Proof.
  intros Hne Hparse Hparts Hpos. unfold evaluate.
  rewrite bool_decide_eq_false_2 by done.
  rewrite Hparse, Hparts.
  set (context := {| input := value; executor := _ |}).
  assert (Hslice : py_slice (input context)
                     (0%Z, Z.of_nat (String.length value)).1
                     (0%Z, Z.of_nat (String.length value)).2
                   = EmptyString +:+ value +:+ EmptyString).
  { cbn [fst snd input context]. rewrite py_slice_full.
    by rewrite string_app_nil_l, string_app_nil_r. }
  destruct (evaluate_node part context (initial_state environment world))
    as [[v|e] σ'] eqn:Hpart.
  - rewrite (word_single_part_value context _ word part
               EmptyString value EmptyString _ σ' v Hslice);
      [by rewrite string_app_nil_l, string_app_nil_r
      |by destruct value
      |by rewrite Hpos
      |by rewrite Hpos; cbn [fst snd String.length]; lia
      |done].
  - apply (word_single_part_raises context _ word part
             EmptyString value EmptyString _ σ' e Hslice);
      [by rewrite Hpos
      |by rewrite Hpos; cbn [fst snd String.length]; lia
      |done].
Qed.

Lemma evaluate_whole_expansion_witness :
  evaluate no_process parsesingle_table "$FOO" {[ "FOO" := "a   b" ]}
    (Some failing_executor) tt
  = match evaluate_node (ast.ParameterNode (0, 4)%Z "FOO")
            {| input := "$FOO";
               executor := default (local_environment_executor no_process)
                             (Some failing_executor) |}
            (initial_state {[ "FOO" := "a   b" ]} tt) with
    | (Ok v, σ') => (bash_like_treatment v, σ')
    | (Raise e, σ') => (Raise e, σ')
    end.
Proof.
  apply (evaluate_whole_expansion no_process parsesingle_table "$FOO"
           {[ "FOO" := "a   b" ]} (Some failing_executor) tt
           tree_FOO (ast.ParameterNode (0, 4)%Z "FOO") "$FOO").
  - discriminate.
  - vm_compute. reflexivity.
  - reflexivity.
  - reflexivity.
Defined.
